(** * Scheduler routes: Engine / metadata Store consistency

    A shallow embedding of [backend/app/schedulers/routes/scheduler.py]:
    the five route handlers [get_all_jobs], [start_job], [pause_job],
    [update_job], [delete_job] and their two helpers [find_job_by_id] and
    [manage_job_metadata].

    The handlers talk to two stateful collaborators: the process-wide
    APScheduler instance (the "Engine") and the SQLAlchemy session on the
    [JobMetadata] table (the "Store").  Both are kept in an explicit
    [World]; a handler is a computation in a small monad that threads the
    world, may raise a Python exception (keeping the world as it was at the
    raise), and records which collaborator it touched, in program order. *)

From Stdlib Require Import String ZArith List Bool Lia Permutation.
Import ListNotations.

Local Open Scope string_scope.
Local Open Scope Z_scope.
Local Open Scope list_scope.

(** ** Data model *)

(** An APScheduler job is paused exactly when its [next_run_time] is
    [None]; otherwise it is scheduled. *)
Inductive JobState : Type := Scheduled | Paused.

Module Job.
(** The live job handle returned by [scheduler.get_jobs()].  [trigger] is
    the length of the job's interval trigger, in seconds. *)
Record t : Type := mk
  { id : string;
    name : string;
    trigger : Z;
    state : JobState }.
End Job.

Module JobMetadata.
(** Modelled from the spec: the ORM class [JobMetadata] of
    [app.schedulers.models.scheduler] is not among the sources; the spec's
    data model gives it the fields [job_id], the interval in minutes and
    [enabled], and the routes read them as [job_id], [time_interval] and
    [enabled]. *)
Record t : Type := mk
  { job_id : string;
    time_interval : Z;
    enabled : bool }.
End JobMetadata.

(** The scheduler's jobs in the order [get_jobs()] enumerates them at that
    moment, and the rows of the metadata table in the order a query
    returns them.  The library enumerates by next run time, paused jobs
    last, so a pause, resume or reschedule can move a job in the real
    enumeration; the order after such a call is not part of the model, and
    what is stated about the Engine after one is stated per job id or up
    to a permutation. *)
Record World : Type := mkWorld
  { scheduler : list Job.t;
    db : list JobMetadata.t }.

(** The dictionaries the mutating routes return. *)
Record Response : Type := mkResponse
  { success : bool;
    message : string }.

Module JobEntry.
(** One element of the [jobs] list built by [get_all_jobs]. *)
Record t : Type := mk
  { id : string;
    name : string;
    time_interval : Z;
    enabled : bool }.
End JobEntry.

Module JobsResponse.
(** The [JobsResponse] built at the end of [get_all_jobs]. *)
Record t : Type := mk
  { jobs : list JobEntry.t;
    success : bool;
    message : string }.
End JobsResponse.

(** ** Effects *)

(** The exceptions the handlers can run into: attribute access on [None],
    [session.delete(None)], and a scheduler call on a job id it no longer
    holds. *)
Inductive Exn : Type := AttributeError | UnmappedInstanceError | JobLookupError.

Inductive Outcome (A : Type) : Type :=
| Return (a : A)
| Raise (e : Exn).
Arguments Return {A} a.
Arguments Raise {A} e.

(** What a step did to which collaborator. *)
Inductive Event : Type := EngineRead | EngineWrite | StoreRead | StoreWrite.

Definition M (A : Type) : Type := World -> Outcome A * World * list Event.

Definition ret {A : Type} (a : A) : M A := fun w => (Return a, w, []).

Definition bind {A B : Type} (m : M A) (k : A -> M B) : M B :=
  fun w =>
    match m w with
    | (Return a, w1, t1) =>
        match k a w1 with
        | (r, w2, t2) => (r, w2, t1 ++ t2)
        end
    | (Raise e, w1, t1) => (Raise e, w1, t1)
    end.

Definition raise {A : Type} (e : Exn) : M A := fun w => (Raise e, w, []).

Declare Scope sched_scope.
Delimit Scope sched_scope with sched.
Notation "x <- c ;; k" := (bind c (fun x => k))
  (at level 100, c at next level, right associativity) : sched_scope.
Notation "c ;; k" := (bind c (fun _ => k))
  (at level 100, right associativity) : sched_scope.
Local Open Scope sched_scope.

Definition outcome {A : Type} (x : Outcome A * World * list Event) : Outcome A := fst (fst x).
Definition world_after {A : Type} (x : Outcome A * World * list Event) : World := snd (fst x).
Definition events {A : Type} (x : Outcome A * World * list Event) : list Event := snd x.

(** ** The Engine: APScheduler calls used by the routes *)

(** [scheduler.get_jobs()] *)
Definition get_jobs : M (list Job.t) :=
  fun w => (Return (scheduler w), w, [EngineRead]).

(** The scheduler addresses a job by its id: the first job carrying it.
    The changed job is kept at its place in the list (see [World] for what
    that leaves out). *)
Fixpoint modify_first (job_id : string) (f : Job.t -> Job.t) (jobs : list Job.t)
  : option (list Job.t) :=
  match jobs with
  | [] => None
  | job :: rest =>
      if String.eqb (Job.id job) job_id then Some (f job :: rest)
      else option_map (cons job) (modify_first job_id f rest)
  end.

Fixpoint remove_first (job_id : string) (jobs : list Job.t) : option (list Job.t) :=
  match jobs with
  | [] => None
  | job :: rest =>
      if String.eqb (Job.id job) job_id then Some rest
      else option_map (cons job) (remove_first job_id rest)
  end.

Definition engine_write (change : list Job.t -> option (list Job.t)) : M unit :=
  fun w =>
    match change (scheduler w) with
    | Some jobs => (Return tt, {| scheduler := jobs; db := db w |}, [EngineWrite])
    | None => (Raise JobLookupError, w, [EngineWrite])
    end.

Definition resumed (job : Job.t) : Job.t :=
  {| Job.id := Job.id job; Job.name := Job.name job;
     Job.trigger := Job.trigger job; Job.state := Scheduled |}.

Definition paused (job : Job.t) : Job.t :=
  {| Job.id := Job.id job; Job.name := Job.name job;
     Job.trigger := Job.trigger job; Job.state := Paused |}.

(** The length, in seconds, of the trigger the library builds for
    [minutes=minutes]: an interval of length zero is replaced by one
    second. *)
Definition interval_length (minutes : Z) : Z :=
  if minutes =? 0 then 1 else 60 * minutes.

(** A rescheduled job gets the new trigger and a freshly computed next run
    time. *)
Definition rescheduled (minutes : Z) (job : Job.t) : Job.t :=
  {| Job.id := Job.id job; Job.name := Job.name job;
     Job.trigger := interval_length minutes; Job.state := Scheduled |}.

(** The intervals for which the library call and the Store write of
    [update_job] go through as modelled here: positive, small enough that
    now plus the interval is still a date the library can represent, and
    fitting an integer column.  One thousand million minutes (about 1900
    years) is well inside all three. *)
Definition max_interval : Z := 1000000000.

Definition valid_interval (minutes : Z) : Prop := 0 < minutes <= max_interval.

(** [job.resume()] *)
Definition resume (job : Job.t) : M unit :=
  engine_write (modify_first (Job.id job) resumed).

(** [job.pause()] *)
Definition pause (job : Job.t) : M unit :=
  engine_write (modify_first (Job.id job) paused).

(** [job.reschedule(trigger="interval", minutes=minutes)].  Modelled for
    the intervals the library takes without trouble: [valid_interval] ones
    and zero.  For an interval so large that now plus the interval
    overflows, the call raises [OverflowError] before it changes the job,
    and with a negative interval the running scheduler never gets back to
    the caller; neither is modelled, and what is stated about the result
    of [update_job] on a live job is stated for [valid_interval] minutes
    or for zero. *)
Definition reschedule (job : Job.t) (minutes : Z) : M unit :=
  engine_write (modify_first (Job.id job) (rescheduled minutes)).

(** [scheduler.remove_job(job_id)] *)
Definition remove_job (job_id : string) : M unit :=
  engine_write (remove_first job_id).

(** ** The Store: the session on the [JobMetadata] table *)

(** [select(JobMetadata).filter_by(job_id=job_id)] followed by
    [.scalars().first()]: the first matching row, or [None]. *)
Fixpoint first_row (rows : list JobMetadata.t) (job_id : string) : option JobMetadata.t :=
  match rows with
  | [] => None
  | row :: rest =>
      if String.eqb (JobMetadata.job_id row) job_id then Some row
      else first_row rest job_id
  end.

Definition session_execute_first (job_id : string) : M (option JobMetadata.t) :=
  fun w => (Return (first_row (db w) job_id), w, [StoreRead]).

(** A keyword argument of [manage_job_metadata]: the column to set and its
    new value.  Keywords that name no column of the table are outside the
    model. *)
Inductive Kwarg : Type :=
| kw_job_id (value : string)
| kw_time_interval (value : Z)
| kw_enabled (value : bool).

(** The integers every backend stores in an integer column. *)
Definition storable (value : Z) : Prop := -2147483648 <= value <= 2147483647.

(** [setattr(job_metadata, key, value)]; on [None] it raises. *)
Definition setattr (job_metadata : option JobMetadata.t) (kw : Kwarg)
  : M (option JobMetadata.t) :=
  match job_metadata with
  | None => raise AttributeError
  | Some row =>
      match kw with
      | kw_job_id value =>
          ret (Some {| JobMetadata.job_id := value;
                       JobMetadata.time_interval := JobMetadata.time_interval row;
                       JobMetadata.enabled := JobMetadata.enabled row |})
      | kw_time_interval value =>
          ret (Some {| JobMetadata.job_id := JobMetadata.job_id row;
                       JobMetadata.time_interval := value;
                       JobMetadata.enabled := JobMetadata.enabled row |})
      | kw_enabled value =>
          ret (Some {| JobMetadata.job_id := JobMetadata.job_id row;
                       JobMetadata.time_interval := JobMetadata.time_interval row;
                       JobMetadata.enabled := value |})
      end
  end.

(** [for key, value in kwargs.items(): setattr(job_metadata, key, value)] *)
Fixpoint setattrs (job_metadata : option JobMetadata.t) (kwargs : list Kwarg)
  : M (option JobMetadata.t) :=
  match kwargs with
  | [] => ret job_metadata
  | kw :: rest =>
      job_metadata' <- setattr job_metadata kw ;;
      setattrs job_metadata' rest
  end.

(** The row object loaded by the query is the first one with that
    [job_id]; flushing it rewrites that row, deleting it drops that row. *)
Fixpoint replace_first (job_id : string) (row' : JobMetadata.t) (rows : list JobMetadata.t)
  : list JobMetadata.t :=
  match rows with
  | [] => []
  | row :: rest =>
      if String.eqb (JobMetadata.job_id row) job_id then row' :: rest
      else row :: replace_first job_id row' rest
  end.

Fixpoint delete_first (job_id : string) (rows : list JobMetadata.t) : list JobMetadata.t :=
  match rows with
  | [] => []
  | row :: rest =>
      if String.eqb (JobMetadata.job_id row) job_id then rest
      else row :: delete_first job_id rest
  end.

(** [session.commit()] with the pending change of the session. *)
Definition session_commit (pending : list JobMetadata.t -> list JobMetadata.t) : M unit :=
  fun w => (Return tt, {| scheduler := scheduler w; db := pending (db w) |}, [StoreWrite]).

(** [session.delete(job_metadata)]: refuses [None], otherwise marks the
    row for deletion at the next commit. *)
Definition session_delete (job_id : string) (job_metadata : option JobMetadata.t)
  : M (list JobMetadata.t -> list JobMetadata.t) :=
  match job_metadata with
  | None => raise UnmappedInstanceError
  | Some _ => ret (delete_first job_id)
  end.

(** ** The route module *)

Fixpoint find_in_jobs (jobs : list Job.t) (job_id : string) : option Job.t :=
  match jobs with
  | [] => None
  | job :: rest =>
      if String.eqb (Job.id job) job_id then Some job
      else find_in_jobs rest job_id
  end.

Definition find_job_by_id (job_id : string) : M (option Job.t) :=
  jobs <- get_jobs ;;
  ret (find_in_jobs jobs job_id).

Definition manage_job_metadata (job_id : string) (action : string) (kwargs : list Kwarg)
  : M (option JobMetadata.t) :=
  job_metadata <- session_execute_first job_id ;;
  if String.eqb action "update" then
    job_metadata' <- setattrs job_metadata kwargs ;;
    session_commit
      (match job_metadata' with
       | Some row' => replace_first job_id row'
       | None => fun rows => rows
       end) ;;
    ret job_metadata'
  else if String.eqb action "delete" then
    pending <- session_delete job_id job_metadata ;;
    session_commit pending ;;
    ret job_metadata
  else ret job_metadata.

(** The body of the [for job in jobs] loop of [get_all_jobs], with the
    list [apscheduler_jobs] built so far. *)
Fixpoint get_all_jobs_loop (jobs : list Job.t) (apscheduler_jobs : list JobEntry.t)
  : M (list JobEntry.t) :=
  match jobs with
  | [] => ret apscheduler_jobs
  | job :: rest =>
      job_metadata <- session_execute_first (Job.id job) ;;
      match job_metadata with
      | None => raise AttributeError
      | Some row =>
          get_all_jobs_loop rest
            (apscheduler_jobs ++
               [ {| JobEntry.id := Job.id job;
                    JobEntry.name := Job.name job;
                    JobEntry.time_interval := JobMetadata.time_interval row;
                    JobEntry.enabled := JobMetadata.enabled row |} ])
      end
  end.

Definition get_all_jobs : M JobsResponse.t :=
  jobs <- get_jobs ;;
  apscheduler_jobs <- get_all_jobs_loop jobs [] ;;
  ret {| JobsResponse.jobs := apscheduler_jobs;
         JobsResponse.success := true;
         JobsResponse.message := "Jobs successfully retrieved." |}.

Definition start_job (job_id : string) : M Response :=
  job <- find_job_by_id job_id ;;
  match job with
  | Some job =>
      resume job ;;
      ret {| success := true; message := "Job started successfully" |}
  | None => ret {| success := false; message := "Job not found" |}
  end.

Definition pause_job (job_id : string) : M Response :=
  job <- find_job_by_id job_id ;;
  match job with
  | Some job =>
      pause job ;;
      ret {| success := true; message := "Job paused successfully" |}
  | None => ret {| success := false; message := "Job not found" |}
  end.

Definition update_job (job_id : string) (time_interval : Z) : M Response :=
  job <- find_job_by_id job_id ;;
  match job with
  | Some job =>
      reschedule job time_interval ;;
      manage_job_metadata job_id "update" [kw_time_interval time_interval] ;;
      ret {| success := true; message := "Job updated successfully" |}
  | None => ret {| success := false; message := "Job not found" |}
  end.

Definition delete_job (job_id : string) : M Response :=
  job <- find_job_by_id job_id ;;
  match job with
  | Some job =>
      remove_job job_id ;;
      manage_job_metadata job_id "delete" [] ;;
      ret {| success := true; message := "Job deleted successfully" |}
  | None => ret {| success := false; message := "Job not found" |}
  end.

(** ** Observations used in the statements *)

Definition not_found : Response := {| success := false; message := "Job not found" |}.

Definition engine_state (w : World) (job_id : string) : option JobState :=
  option_map Job.state (find_in_jobs (scheduler w) job_id).

Definition engine_interval (w : World) (job_id : string) : option Z :=
  option_map Job.trigger (find_in_jobs (scheduler w) job_id).

Definition store_enabled (w : World) (job_id : string) : option bool :=
  option_map JobMetadata.enabled (first_row (db w) job_id).

Definition store_interval (w : World) (job_id : string) : option Z :=
  option_map JobMetadata.time_interval (first_row (db w) job_id).

(** The Store's interval for [job_id] exists and is the Engine's: the
    Store counts minutes, the Engine seconds. *)
Definition intervals_agree (w : World) (job_id : string) : Prop :=
  exists minutes, store_interval w job_id = Some minutes
                  /\ engine_interval w job_id = Some (60 * minutes).

(** The four mutating control operations. *)
Inductive Op : Type :=
| StartJob (job_id : string)
| PauseJob (job_id : string)
| UpdateInterval (job_id : string) (minutes : Z)
| DeleteJob (job_id : string).

Definition run_op (op : Op) : M Response :=
  match op with
  | StartJob job_id => start_job job_id
  | PauseJob job_id => pause_job job_id
  | UpdateInterval job_id minutes => update_job job_id minutes
  | DeleteJob job_id => delete_job job_id
  end.

(** A call of the kind the consistency property ranges over, on a fixed
    job id. *)
Inductive Call : Type :=
| CallStart
| CallPause
| CallUpdate (minutes : Z).

Definition op_of_call (job_id : string) (c : Call) : Op :=
  match c with
  | CallStart => StartJob job_id
  | CallPause => PauseJob job_id
  | CallUpdate minutes => UpdateInterval job_id minutes
  end.

(** Runs the calls in order; [Some] of the final world when every call
    returned a response with [success = True]. *)
Fixpoint run_calls (job_id : string) (calls : list Call) (w : World) : option World :=
  match calls with
  | [] => Some w
  | c :: rest =>
      match run_op (op_of_call job_id c) w with
      | (Return r, w1, _) => if success r then run_calls job_id rest w1 else None
      | (Raise _, _, _) => None
      end
  end.


(** The interval of an [update_job] call is a valid one. *)
Definition op_valid (op : Op) : Prop :=
  match op with
  | UpdateInterval _ minutes => valid_interval minutes
  | StartJob _ | PauseJob _ | DeleteJob _ => True
  end.

Definition op_job_id (op : Op) : string :=
  match op with
  | StartJob job_id | PauseJob job_id | UpdateInterval job_id _ | DeleteJob job_id => job_id
  end.

(** The job ids the Engine currently holds. *)
Definition engine_ids (w : World) : list string := map Job.id (scheduler w).

(** Every live job has a metadata row. *)
Definition all_rows_present (w : World) : Prop :=
  forall job, In job (scheduler w) -> first_row (db w) (Job.id job) <> None.

(** The entry [get_all_jobs] builds for [job] from the row it loads. *)
Definition entry_of (rows : list JobMetadata.t) (job : Job.t) (entry : JobEntry.t) : Prop :=
  exists row,
    first_row rows (Job.id job) = Some row
    /\ entry = {| JobEntry.id := Job.id job;
                  JobEntry.name := Job.name job;
                  JobEntry.time_interval := JobMetadata.time_interval row;
                  JobEntry.enabled := JobMetadata.enabled row |}.

(** Two answers of the listing that differ at most in the order of the
    entries: both return, with the same entries, or both raise the same
    exception. *)
Definition same_listing (a b : Outcome JobsResponse.t) : Prop :=
  match a, b with
  | Return r, Return r' =>
      Permutation (JobsResponse.jobs r) (JobsResponse.jobs r')
      /\ JobsResponse.success r = JobsResponse.success r'
      /\ JobsResponse.message r = JobsResponse.message r'
  | Raise e, Raise e' => e = e'
  | Return _, Raise _ | Raise _, Return _ => False
  end.

(** Scans a run's events: no Store write before the first Engine write. *)
Fixpoint engine_first (engine_written : bool) (tr : list Event) : bool :=
  match tr with
  | [] => true
  | EngineWrite :: rest => engine_first true rest
  | StoreWrite :: rest => engine_written && engine_first engine_written rest
  | _ :: rest => engine_first engine_written rest
  end.

(** The row [update_job] flushes: the loaded row with the new interval. *)
Definition with_interval (minutes : Z) (row : JobMetadata.t) : JobMetadata.t :=
  {| JobMetadata.job_id := JobMetadata.job_id row;
     JobMetadata.time_interval := minutes;
     JobMetadata.enabled := JobMetadata.enabled row |}.

(** ** Concrete states *)

(** The state after bootstrap registered ["scan-1"] every 10 minutes. *)
Definition scan_1 : Job.t :=
  {| Job.id := "scan-1"; Job.name := "Scan"; Job.trigger := 600; Job.state := Scheduled |}.

Definition scan_1_row : JobMetadata.t :=
  {| JobMetadata.job_id := "scan-1"; JobMetadata.time_interval := 10;
     JobMetadata.enabled := true |}.

Definition bootstrap_world : World :=
  {| scheduler := [scan_1]; db := [scan_1_row] |}.

(** The bootstrap state after pause, update to 30 minutes, start, pause. *)
Definition paused_at_30 : World :=
  {| scheduler := [ {| Job.id := "scan-1"; Job.name := "Scan";
                       Job.trigger := 1800; Job.state := Paused |} ];
     db := [ {| JobMetadata.job_id := "scan-1";
                JobMetadata.time_interval := 30;
                JobMetadata.enabled := true |} ] |}.

(** A second live job, ["orphan"], whose metadata row is missing. *)
Definition orphan : Job.t :=
  {| Job.id := "orphan"; Job.name := "Orphan"; Job.trigger := 300; Job.state := Scheduled |}.

Definition orphan_world : World :=
  {| scheduler := [orphan; scan_1]; db := [scan_1_row] |}.

(** Both jobs live, each with its row. *)
Definition orphan_row : JobMetadata.t :=
  {| JobMetadata.job_id := "orphan"; JobMetadata.time_interval := 5;
     JobMetadata.enabled := false |}.

Definition two_jobs_world : World :=
  {| scheduler := [orphan; scan_1]; db := [scan_1_row; orphan_row] |}.

(** ** Lists of jobs and rows *)

Section JobLists.

Variable job_id : string.

Lemma find_in_jobs_id (jobs : list Job.t) (job : Job.t) :
  find_in_jobs jobs job_id = Some job -> Job.id job = job_id.
Proof.
  induction jobs as [|j rest IH]; simpl; [discriminate|].
  destruct (String.eqb_spec (Job.id j) job_id) as [E|_]; [|exact IH].
  intros H; injection H as <-; exact E.
Qed.

Variable f : Job.t -> Job.t.
Hypothesis f_id : forall job, Job.id (f job) = Job.id job.

Lemma modify_first_found (jobs : list Job.t) (job : Job.t) :
  find_in_jobs jobs job_id = Some job ->
  exists jobs',
    modify_first job_id f jobs = Some jobs'
    /\ find_in_jobs jobs' job_id = Some (f job).
Proof using f_id.
  induction jobs as [|j rest IH]; simpl; [discriminate|].
  case_eq (String.eqb (Job.id j) job_id); intros E H.
  - injection H as ->. exists (f job :: rest). simpl.
    rewrite f_id, E. split; reflexivity.
  - destruct (IH H) as (rest' & Hm & Hf). exists (j :: rest').
    rewrite Hm. simpl. rewrite E. split; [reflexivity | exact Hf].
Qed.


Lemma modify_first_again (jobs jobs' : list Job.t) :
  (forall job, f (f job) = f job) ->
  modify_first job_id f jobs = Some jobs' ->
  modify_first job_id f jobs' = Some jobs'.
Proof using f_id.
  intros Hi. revert jobs'.
  induction jobs as [|j rest IH]; simpl; intros jobs'; [discriminate|].
  case_eq (String.eqb (Job.id j) job_id); intros E.
  - intros H; injection H as <-. simpl. rewrite f_id, E, Hi. reflexivity.
  - destruct (modify_first job_id f rest) as [rest'|]; simpl; [|discriminate].
    intros H; injection H as <-. simpl. rewrite E, (IH rest' eq_refl). reflexivity.
Qed.

Lemma remove_first_found (jobs : list Job.t) (job : Job.t) :
  find_in_jobs jobs job_id = Some job ->
  exists jobs', remove_first job_id jobs = Some jobs'.
Proof.
  induction jobs as [|j rest IH]; simpl; [discriminate|].
  destruct (String.eqb (Job.id j) job_id); intros H.
  - exists rest. reflexivity.
  - destruct (IH H) as (rest' & ->). exists (j :: rest'). reflexivity.
Qed.

Lemma first_row_replace_first (rows : list JobMetadata.t) (row row' : JobMetadata.t) :
  first_row rows job_id = Some row ->
  JobMetadata.job_id row' = job_id ->
  first_row (replace_first job_id row' rows) job_id = Some row'.
Proof.
  intros H E. induction rows as [|r rest IH]; simpl in *; [discriminate|].
  case_eq (String.eqb (JobMetadata.job_id r) job_id); intros Er; rewrite Er in H.
  - simpl. rewrite E, String.eqb_refl. reflexivity.
  - simpl. rewrite Er. exact (IH H).
Qed.

Lemma first_row_id (rows : list JobMetadata.t) (row : JobMetadata.t) :
  first_row rows job_id = Some row -> JobMetadata.job_id row = job_id.
Proof.
  induction rows as [|r rest IH]; simpl; [discriminate|].
  destruct (String.eqb_spec (JobMetadata.job_id r) job_id) as [E|_]; [|exact IH].
  intros H; injection H as <-; exact E.
Qed.

End JobLists.

Lemma resumed_id job : Job.id (resumed job) = Job.id job.
Proof. reflexivity. Qed.

Lemma paused_id job : Job.id (paused job) = Job.id job.
Proof. reflexivity. Qed.

Lemma rescheduled_id minutes job : Job.id (rescheduled minutes job) = Job.id job.
Proof. reflexivity. Qed.

(** ** What each handler computes, by case *)

Section Handlers.

Variables (w : World) (job_id : string).

Section NotFound.
Hypothesis absent : find_in_jobs (scheduler w) job_id = None.

Lemma start_job_absent : start_job job_id w = (Return not_found, w, [EngineRead]).
Proof using absent. unfold start_job, find_job_by_id, bind, get_jobs, ret. rewrite absent. reflexivity. Qed.

Lemma pause_job_absent : pause_job job_id w = (Return not_found, w, [EngineRead]).
Proof using absent. unfold pause_job, find_job_by_id, bind, get_jobs, ret. rewrite absent. reflexivity. Qed.

Lemma update_job_absent minutes :
  update_job job_id minutes w = (Return not_found, w, [EngineRead]).
Proof using absent. unfold update_job, find_job_by_id, bind, get_jobs, ret. rewrite absent. reflexivity. Qed.

Lemma delete_job_absent : delete_job job_id w = (Return not_found, w, [EngineRead]).
Proof using absent. unfold delete_job, find_job_by_id, bind, get_jobs, ret. rewrite absent. reflexivity. Qed.
End NotFound.

Section Found.
Variable job : Job.t.
Hypothesis present : find_in_jobs (scheduler w) job_id = Some job.

Lemma start_job_present :
  exists jobs',
    modify_first job_id resumed (scheduler w) = Some jobs'
    /\ start_job job_id w
       = (Return {| success := true; message := "Job started successfully" |},
          {| scheduler := jobs'; db := db w |},
          [EngineRead; EngineWrite]).
Proof using present.
  destruct (modify_first_found job_id resumed resumed_id _ _ present) as (jobs' & Hm & _).
  exists jobs'. split; [exact Hm|].
  unfold start_job, find_job_by_id, bind, get_jobs, ret, resume, engine_write.
  rewrite present, (find_in_jobs_id _ _ _ present), Hm. reflexivity.
Qed.

Lemma pause_job_present :
  exists jobs',
    modify_first job_id paused (scheduler w) = Some jobs'
    /\ pause_job job_id w
       = (Return {| success := true; message := "Job paused successfully" |},
          {| scheduler := jobs'; db := db w |},
          [EngineRead; EngineWrite]).
Proof using present.
  destruct (modify_first_found job_id paused paused_id _ _ present) as (jobs' & Hm & _).
  exists jobs'. split; [exact Hm|].
  unfold pause_job, find_job_by_id, bind, get_jobs, ret, pause, engine_write.
  rewrite present, (find_in_jobs_id _ _ _ present), Hm. reflexivity.
Qed.

Lemma update_job_present minutes :
  exists jobs',
    modify_first job_id (rescheduled minutes) (scheduler w) = Some jobs'
    /\ update_job job_id minutes w
       = match first_row (db w) job_id with
         | Some row =>
             (Return {| success := true; message := "Job updated successfully" |},
              {| scheduler := jobs';
                 db := replace_first job_id (with_interval minutes row) (db w) |},
              [EngineRead; EngineWrite; StoreRead; StoreWrite])
         | None =>
             (Raise AttributeError,
              {| scheduler := jobs'; db := db w |},
              [EngineRead; EngineWrite; StoreRead])
         end.
Proof using present.
  destruct (modify_first_found job_id (rescheduled minutes) (rescheduled_id minutes)
              _ _ present) as (jobs' & Hm & _).
  exists jobs'. split; [exact Hm|].
  unfold update_job, find_job_by_id, bind, get_jobs, ret, reschedule, engine_write.
  rewrite present, (find_in_jobs_id _ _ _ present), Hm.
  unfold manage_job_metadata, bind, session_execute_first. simpl.
  destruct (first_row (db w) job_id) as [row|]; reflexivity.
Qed.

Lemma delete_job_present :
  exists jobs',
    remove_first job_id (scheduler w) = Some jobs'
    /\ delete_job job_id w
       = match first_row (db w) job_id with
         | Some _ =>
             (Return {| success := true; message := "Job deleted successfully" |},
              {| scheduler := jobs'; db := delete_first job_id (db w) |},
              [EngineRead; EngineWrite; StoreRead; StoreWrite])
         | None =>
             (Raise UnmappedInstanceError,
              {| scheduler := jobs'; db := db w |},
              [EngineRead; EngineWrite; StoreRead])
         end.
Proof using present.
  destruct (remove_first_found job_id _ _ present) as (jobs' & Hm).
  exists jobs'. split; [exact Hm|].
  unfold delete_job, find_job_by_id, bind, get_jobs, ret, remove_job, engine_write.
  rewrite present, Hm.
  unfold manage_job_metadata, bind, session_execute_first. simpl.
  destruct (first_row (db w) job_id) as [row|]; reflexivity.
Qed.
End Found.

End Handlers.

(** ** The handlers on the concrete states *)

Example get_all_jobs_bootstrap :
  get_all_jobs bootstrap_world
  = (Return {| JobsResponse.jobs :=
                 [ {| JobEntry.id := "scan-1"; JobEntry.name := "Scan";
                      JobEntry.time_interval := 10; JobEntry.enabled := true |} ];
               JobsResponse.success := true;
               JobsResponse.message := "Jobs successfully retrieved." |},
     bootstrap_world,
     [EngineRead; StoreRead]).
Proof. reflexivity. Qed.

Example update_job_bootstrap :
  update_job "scan-1" 30 bootstrap_world
  = (Return {| success := true; message := "Job updated successfully" |},
     {| scheduler := [rescheduled 30 scan_1]; db := [with_interval 30 scan_1_row] |},
     [EngineRead; EngineWrite; StoreRead; StoreWrite]).
Proof. reflexivity. Qed.

Example delete_job_bootstrap :
  delete_job "scan-1" bootstrap_world
  = (Return {| success := true; message := "Job deleted successfully" |},
     {| scheduler := []; db := [] |},
     [EngineRead; EngineWrite; StoreRead; StoreWrite]).
Proof. reflexivity. Qed.

(** With the row missing the Engine has already been changed when the
    Store access raises. *)
Example update_job_orphan :
  update_job "orphan" 30 orphan_world
  = (Raise AttributeError,
     {| scheduler := [rescheduled 30 orphan; scan_1]; db := [scan_1_row] |},
     [EngineRead; EngineWrite; StoreRead]).
Proof. reflexivity. Qed.

Example delete_job_orphan :
  delete_job "orphan" orphan_world
  = (Raise UnmappedInstanceError,
     {| scheduler := [scan_1]; db := [scan_1_row] |},
     [EngineRead; EngineWrite; StoreRead]).
Proof. reflexivity. Qed.

(** ** Registered and unknown ids *)

Lemma find_in_jobs_unknown (jobs : list Job.t) (job_id : string) :
  ~ In job_id (map Job.id jobs) -> find_in_jobs jobs job_id = None.
Proof.
  induction jobs as [|j rest IH]; simpl; intros H; [reflexivity|].
  destruct (String.eqb_spec (Job.id j) job_id) as [E|_].
  - exfalso. apply H. left. exact E.
  - apply IH. intros Hin. apply H. right. exact Hin.
Qed.

Lemma find_in_jobs_registered (jobs : list Job.t) (job_id : string) :
  In job_id (map Job.id jobs) -> exists job, find_in_jobs jobs job_id = Some job.
Proof.
  induction jobs as [|j rest IH]; simpl; intros H; [contradiction|].
  destruct (String.eqb_spec (Job.id j) job_id) as [_|N].
  - exists j. reflexivity.
  - destruct H as [H|H]; [contradiction | exact (IH H)].
Qed.

Lemma run_op_unknown (w : World) (op : Op) :
  ~ In (op_job_id op) (engine_ids w) ->
  run_op op w = (Return not_found, w, [EngineRead]).
Proof.
  intros H. apply find_in_jobs_unknown in H.
  destruct op; simpl in *.
  - apply start_job_absent; exact H.
  - apply pause_job_absent; exact H.
  - apply update_job_absent; exact H.
  - apply delete_job_absent; exact H.
Qed.

(** ** The not-found branch *)

(** C5: for a job id the Engine does not hold, [start_job] returns
    [success = False] with the message "Job not found". *)
Theorem start_job_unknown_id (w : World) (job_id : string) :
  ~ In job_id (engine_ids w) ->
  outcome (start_job job_id w)
  = Return {| success := false; message := "Job not found" |}.
Proof.
  intros H. apply find_in_jobs_unknown in H.
  rewrite (start_job_absent w job_id H). reflexivity.
Qed.

Lemma start_job_unknown_id_witness :
  ~ In "ghost" (engine_ids bootstrap_world)
  /\ outcome (start_job "ghost" bootstrap_world)
     = Return {| success := false; message := "Job not found" |}.
Proof.
  assert (H : ~ In "ghost" (engine_ids bootstrap_world)).
  { simpl. intros [E|[]]. discriminate E. }
  split; [exact H | exact (start_job_unknown_id bootstrap_world "ghost" H)].
Defined.

(** C8: when the job id is not among the Engine's jobs, each of
    [start_job], [pause_job], [update_job] and [delete_job] returns exactly
    [success = False], "Job not found", and leaves the Engine's jobs and
    the whole metadata table as they were. *)
Theorem not_found_branch_atomic (w : World) (op : Op) :
  ~ In (op_job_id op) (engine_ids w) ->
  outcome (run_op op w) = Return {| success := false; message := "Job not found" |}
  /\ scheduler (world_after (run_op op w)) = scheduler w
  /\ db (world_after (run_op op w)) = db w.
Proof.
  intros H. rewrite (run_op_unknown w op H). repeat split.
Qed.

Lemma not_found_branch_atomic_witness :
  ~ In (op_job_id (UpdateInterval "ghost" 30)) (engine_ids bootstrap_world)
  /\ outcome (run_op (UpdateInterval "ghost" 30) bootstrap_world)
     = Return {| success := false; message := "Job not found" |}
  /\ scheduler (world_after (run_op (UpdateInterval "ghost" 30) bootstrap_world))
     = scheduler bootstrap_world
  /\ db (world_after (run_op (UpdateInterval "ghost" 30) bootstrap_world))
     = db bootstrap_world.
Proof.
  assert (H : ~ In (op_job_id (UpdateInterval "ghost" 30)) (engine_ids bootstrap_world)).
  { simpl. intros [E|[]]. discriminate E. }
  split; [exact H | exact (not_found_branch_atomic bootstrap_world _ H)].
Defined.

(** C3, as the spec states it, fails: [delete_job] on an id the Engine does
    not hold answers [success = False], "Job not found". *)
Lemma ghost_delete_reports_not_found :
  ~ In "ghost" (engine_ids bootstrap_world)
  /\ outcome (delete_job "ghost" bootstrap_world)
     = Return {| success := false; message := "Job not found" |}.
Proof.
  split; [|reflexivity].
  simpl. intros [E|[]]. discriminate E.
Qed.

(** C3, amended: for a job id unknown to the Engine, [delete_job] is a
    no-op on the Engine and on the Store, and reports [success = False]
    with "Job not found". *)
Theorem delete_job_unknown_id (w : World) (job_id : string) :
  ~ In job_id (engine_ids w) ->
  outcome (delete_job job_id w)
  = Return {| success := false; message := "Job not found" |}
  /\ world_after (delete_job job_id w) = w.
Proof.
  intros H. apply find_in_jobs_unknown in H.
  rewrite (delete_job_absent w job_id H). split; reflexivity.
Qed.

Lemma delete_job_unknown_id_witness :
  ~ In "ghost" (engine_ids orphan_world)
  /\ outcome (delete_job "ghost" orphan_world)
     = Return {| success := false; message := "Job not found" |}
  /\ world_after (delete_job "ghost" orphan_world) = orphan_world.
Proof.
  assert (H : ~ In "ghost" (engine_ids orphan_world)).
  { simpl. intros [E|[E|[]]]; discriminate E. }
  split; [exact H | exact (delete_job_unknown_id orphan_world "ghost" H)].
Defined.

(** ** [start_job] and [pause_job] act on the Engine only *)






(** ** Pausing twice *)

(** C6: for a registered job id, [pause_job] succeeds, and calling it again
    right away succeeds again and leaves the world (Engine jobs and Store
    rows) exactly as the first call left it. *)
Theorem pause_job_idempotent (w : World) (job_id : string) :
  In job_id (engine_ids w) ->
  outcome (pause_job job_id w)
  = Return {| success := true; message := "Job paused successfully" |}
  /\ outcome (pause_job job_id (world_after (pause_job job_id w)))
     = Return {| success := true; message := "Job paused successfully" |}
  /\ world_after (pause_job job_id (world_after (pause_job job_id w)))
     = world_after (pause_job job_id w).
Proof.
  intros H. destruct (find_in_jobs_registered _ _ H) as (job & F).
  destruct (pause_job_present w job_id job F) as (jobs1 & M1 & E1).
  destruct (modify_first_found job_id paused paused_id _ _ F) as (jobs1' & M1' & F1).
  rewrite M1 in M1'. injection M1' as <-.
  assert (W1 : world_after (pause_job job_id w) = {| scheduler := jobs1; db := db w |})
    by (rewrite E1; reflexivity).
  rewrite W1, E1.
  destruct (pause_job_present {| scheduler := jobs1; db := db w |} job_id _ F1)
    as (jobs2 & M2 & ->).
  simpl in M2.
  rewrite (modify_first_again job_id paused paused_id _ _ (fun _ => eq_refl) M1) in M2.
  injection M2 as <-.
  repeat split.
Qed.

Lemma pause_job_idempotent_witness :
  In "scan-1" (engine_ids bootstrap_world)
  /\ outcome (pause_job "scan-1" bootstrap_world)
     = Return {| success := true; message := "Job paused successfully" |}
  /\ outcome (pause_job "scan-1" (world_after (pause_job "scan-1" bootstrap_world)))
     = Return {| success := true; message := "Job paused successfully" |}
  /\ world_after (pause_job "scan-1" (world_after (pause_job "scan-1" bootstrap_world)))
     = world_after (pause_job "scan-1" bootstrap_world).
Proof.
  assert (H : In "scan-1" (engine_ids bootstrap_world)) by (simpl; left; reflexivity).
  split; [exact H | exact (pause_job_idempotent bootstrap_world "scan-1" H)].
Defined.

(** ** Order of the two mutations *)

Lemma engine_first_sound (tr before after : list Event) (engine_written : bool) :
  engine_first engine_written tr = true ->
  tr = before ++ StoreWrite :: after ->
  engine_written = true \/ In EngineWrite before.
Proof.
  revert tr engine_written.
  induction before as [|e before IH]; intros tr seen H ->; simpl in H.
  - left. apply andb_prop in H. tauto.
  - destruct e.
    + destruct (IH _ _ H eq_refl); [left|right; right]; assumption.
    + right. left. reflexivity.
    + destruct (IH _ _ H eq_refl); [left|right; right]; assumption.
    + apply andb_prop in H. left. tauto.
Qed.

Lemma run_op_engine_first (op : Op) (w : World) :
  engine_first false (events (run_op op w)) = true.
Proof.
  destruct (find_in_jobs (scheduler w) (op_job_id op)) as [job|] eqn:F.
  - destruct op; simpl in *.
    + destruct (start_job_present w _ job F) as (js & _ & ->). reflexivity.
    + destruct (pause_job_present w _ job F) as (js & _ & ->). reflexivity.
    + destruct (update_job_present w _ job F minutes) as (js & _ & ->).
      destruct (first_row (db w) job_id); reflexivity.
    + destruct (delete_job_present w _ job F) as (js & _ & ->).
      destruct (first_row (db w) job_id); reflexivity.
  - destruct op; simpl in *.
    + rewrite (start_job_absent w _ F). reflexivity.
    + rewrite (pause_job_absent w _ F). reflexivity.
    + rewrite (update_job_absent w _ F). reflexivity.
    + rewrite (delete_job_absent w _ F). reflexivity.
Qed.

(** C7: in a run of any of the four mutating operations, every write to
    the Store comes after a mutation of the Engine: wherever the events of
    the run split around a Store write, an Engine write lies before it. *)
Theorem engine_mutation_precedes_store_mutation
    (op : Op) (w : World) (before after : list Event) :
  events (run_op op w) = before ++ StoreWrite :: after ->
  In EngineWrite before.
Proof.
  intros H.
  destruct (engine_first_sound _ _ _ _ (run_op_engine_first op w) H) as [E|E];
    [discriminate E | exact E].
Qed.

Lemma engine_mutation_precedes_store_mutation_witness :
  events (run_op (UpdateInterval "scan-1" 30) bootstrap_world)
  = [EngineRead; EngineWrite; StoreRead] ++ StoreWrite :: []
  /\ In EngineWrite [EngineRead; EngineWrite; StoreRead].
Proof.
  assert (H : events (run_op (UpdateInterval "scan-1" 30) bootstrap_world)
              = [EngineRead; EngineWrite; StoreRead] ++ StoreWrite :: [])
    by reflexivity.
  split; [exact H|].
  exact (engine_mutation_precedes_store_mutation _ _ _ _ H).
Defined.

(** ** Rescheduling *)

Lemma update_job_success (w : World) (job_id : string) (minutes : Z)
    (job : Job.t) (row : JobMetadata.t) :
  find_in_jobs (scheduler w) job_id = Some job ->
  first_row (db w) job_id = Some row ->
  exists w',
    update_job job_id minutes w
    = (Return {| success := true; message := "Job updated successfully" |}, w',
       [EngineRead; EngineWrite; StoreRead; StoreWrite])
    /\ find_in_jobs (scheduler w') job_id = Some (rescheduled minutes job)
    /\ first_row (db w') job_id = Some (with_interval minutes row).
Proof.
  intros F R.
  destruct (update_job_present w job_id job F minutes) as (jobs' & Hm & E).
  destruct (modify_first_found job_id _ (rescheduled_id minutes) _ _ F) as (jobs'' & Hm' & F').
  rewrite Hm in Hm'. injection Hm' as <-.
  rewrite R in E. eexists. split; [exact E|]. simpl. split; [exact F'|].
  apply (first_row_replace_first job_id _ row); [exact R|].
  simpl. exact (first_row_id _ _ _ R).
Qed.

(** C4, as the spec states it, fails: on the bootstrap state, where
    ["scan-1"] runs every 10 minutes, [update_job] with 0 answers
    [success = True]; afterwards the Store interval is 0 and the Engine
    job fires every second. *)
Lemma scan_1_update_zero_accepted :
  store_interval bootstrap_world "scan-1" = Some 10
  /\ engine_interval bootstrap_world "scan-1" = Some 600
  /\ outcome (update_job "scan-1" 0 bootstrap_world)
     = Return {| success := true; message := "Job updated successfully" |}
  /\ store_interval (world_after (update_job "scan-1" 0 bootstrap_world)) "scan-1" = Some 0
  /\ engine_interval (world_after (update_job "scan-1" 0 bootstrap_world)) "scan-1" = Some 1.
Proof. repeat split. Qed.

(** C4, amended: for a registered job id that has a metadata row,
    [update_job] with interval 0 is not rejected: it answers
    [success = True], "Job updated successfully", and afterwards the
    Store interval of that id is 0 and its Engine trigger is one second
    long. *)
Theorem update_job_zero_not_rejected (w : World) (job_id : string) :
  In job_id (engine_ids w) ->
  first_row (db w) job_id <> None ->
  outcome (update_job job_id 0 w)
  = Return {| success := true; message := "Job updated successfully" |}
  /\ store_interval (world_after (update_job job_id 0 w)) job_id = Some 0
  /\ engine_interval (world_after (update_job job_id 0 w)) job_id = Some 1.
Proof.
  intros H R.
  destruct (find_in_jobs_registered _ _ H) as (job & F).
  destruct (first_row (db w) job_id) as [row|] eqn:Er; [|contradiction].
  destruct (update_job_success w job_id 0 job row F Er) as (w' & -> & F' & R').
  unfold outcome, world_after, engine_interval, store_interval; simpl.
  rewrite F', R'. repeat split.
Qed.

Lemma update_job_zero_not_rejected_witness :
  In "scan-1" (engine_ids two_jobs_world)
  /\ first_row (db two_jobs_world) "scan-1" <> None
  /\ outcome (update_job "scan-1" 0 two_jobs_world)
     = Return {| success := true; message := "Job updated successfully" |}
  /\ store_interval (world_after (update_job "scan-1" 0 two_jobs_world)) "scan-1" = Some 0
  /\ engine_interval (world_after (update_job "scan-1" 0 two_jobs_world)) "scan-1" = Some 1.
Proof.
  assert (H : In "scan-1" (engine_ids two_jobs_world))
    by (simpl; right; left; reflexivity).
  assert (R : first_row (db two_jobs_world) "scan-1" <> None) by (simpl; discriminate).
  split; [exact H|]. split; [exact R|].
  exact (update_job_zero_not_rejected two_jobs_world "scan-1" H R).
Defined.

(** ** Listing *)

Lemma get_all_jobs_loop_missing (w : World) (job : Job.t) (jobs : list Job.t) :
  In job jobs ->
  first_row (db w) (Job.id job) = None ->
  forall acc, exists tr, get_all_jobs_loop jobs acc w = (Raise AttributeError, w, tr).
Proof.
  intros Hin Hnone.
  induction jobs as [|j rest IH]; [contradiction|]. intros acc.
  simpl. unfold bind, session_execute_first.
  destruct (first_row (db w) (Job.id j)) as [row|] eqn:R.
  - destruct Hin as [->|Hin]; [congruence|].
    destruct (IH Hin (acc ++ [JobEntry.mk (Job.id j) (Job.name j)
                                 (JobMetadata.time_interval row)
                                 (JobMetadata.enabled row)])) as (tr & ->).
    eexists. reflexivity.
  - eexists. reflexivity.
Qed.

Lemma get_all_jobs_loop_present (w : World) (jobs : list Job.t) :
  (forall job, In job jobs -> first_row (db w) (Job.id job) <> None) ->
  forall acc, exists entries tr,
    get_all_jobs_loop jobs acc w = (Return (acc ++ entries), w, tr)
    /\ Forall2 (entry_of (db w)) jobs entries.
Proof.
  induction jobs as [|j rest IH]; intros Hall acc.
  - exists [], []. simpl. rewrite app_nil_r. split; [reflexivity|constructor].
  - simpl. unfold bind, session_execute_first.
    destruct (first_row (db w) (Job.id j)) as [row|] eqn:R.
    2:{ exfalso. apply (Hall j); [left; reflexivity | exact R]. }
    destruct (IH (fun job H => Hall job (or_intror H))
                (acc ++ [JobEntry.mk (Job.id j) (Job.name j)
                           (JobMetadata.time_interval row)
                           (JobMetadata.enabled row)])) as (entries & tr & -> & HF).
    eexists (_ :: entries), _. rewrite <- app_assoc. split; [reflexivity|].
    constructor; [|exact HF]. exists row. split; [exact R|reflexivity].
Qed.

(** C2: the listing does not survive a missing metadata row: as soon as
    one live job has no row, [get_all_jobs] ends in the [AttributeError]
    raised by reading [time_interval] from [None], and no list is
    returned. *)
Theorem get_all_jobs_missing_row_raises (w : World) (job : Job.t) :
  In job (scheduler w) ->
  first_row (db w) (Job.id job) = None ->
  outcome (get_all_jobs w) = Raise AttributeError.
Proof.
  intros Hin Hnone. unfold get_all_jobs, bind at 1, get_jobs.
  destruct (get_all_jobs_loop_missing w job _ Hin Hnone []) as (tr & E).
  unfold bind. rewrite E. reflexivity.
Qed.

Lemma get_all_jobs_missing_row_raises_witness :
  In orphan (scheduler orphan_world)
  /\ first_row (db orphan_world) (Job.id orphan) = None
  /\ outcome (get_all_jobs orphan_world) = Raise AttributeError.
Proof.
  assert (H : In orphan (scheduler orphan_world)) by (simpl; left; reflexivity).
  assert (R : first_row (db orphan_world) (Job.id orphan) = None) by reflexivity.
  split; [exact H|]. split; [exact R|].
  exact (get_all_jobs_missing_row_raises orphan_world orphan H R).
Defined.

(** C10: when every live job has a metadata row, [get_all_jobs] returns
    [success = True], "Jobs successfully retrieved.", and a list with
    exactly one entry per Engine job, in the Engine's order, each made of
    the job's id and name and of its row's [time_interval] and [enabled];
    the Engine and the Store are left as they were. *)
Theorem get_all_jobs_lists_every_job (w : World) :
  all_rows_present w ->
  exists entries,
    outcome (get_all_jobs w)
    = Return {| JobsResponse.jobs := entries;
                JobsResponse.success := true;
                JobsResponse.message := "Jobs successfully retrieved." |}
    /\ Forall2 (entry_of (db w)) (scheduler w) entries
    /\ world_after (get_all_jobs w) = w.
Proof.
  intros Hall.
  destruct (get_all_jobs_loop_present w (scheduler w) Hall []) as (entries & tr & E & HF).
  exists entries. unfold get_all_jobs, bind, get_jobs. rewrite E.
  repeat split. exact HF.
Qed.

Lemma get_all_jobs_lists_every_job_witness :
  all_rows_present bootstrap_world
  /\ exists entries,
       outcome (get_all_jobs bootstrap_world)
       = Return {| JobsResponse.jobs := entries;
                   JobsResponse.success := true;
                   JobsResponse.message := "Jobs successfully retrieved." |}
       /\ Forall2 (entry_of (db bootstrap_world)) (scheduler bootstrap_world) entries
       /\ world_after (get_all_jobs bootstrap_world) = bootstrap_world.
Proof.
  assert (H : all_rows_present bootstrap_world).
  { intros job [<-|[]]. simpl. discriminate. }
  split; [exact H | exact (get_all_jobs_lists_every_job bootstrap_world H)].
Defined.

(** ** Sequences of successful calls on one job id *)

Lemma start_job_step (w w1 : World) (job_id : string) (r : Response) (tr : list Event) :
  start_job job_id w = (Return r, w1, tr) ->
  success r = true ->
  db w1 = db w
  /\ engine_interval w1 job_id = engine_interval w job_id
  /\ engine_state w1 job_id = Some Scheduled.
Proof.
  intros E S.
  destruct (find_in_jobs (scheduler w) job_id) as [job|] eqn:F.
  - destruct (start_job_present w job_id job F) as (jobs' & Hm & E').
    destruct (modify_first_found job_id resumed resumed_id _ _ F) as (jobs'' & Hm' & F').
    rewrite Hm in Hm'. injection Hm' as <-.
    rewrite E' in E. injection E as _ <- _.
    unfold engine_interval, engine_state. simpl. rewrite F, F'. repeat split.
  - rewrite (start_job_absent w job_id F) in E. injection E as <- _ _. discriminate S.
Qed.

Lemma pause_job_step (w w1 : World) (job_id : string) (r : Response) (tr : list Event) :
  pause_job job_id w = (Return r, w1, tr) ->
  success r = true ->
  db w1 = db w
  /\ engine_interval w1 job_id = engine_interval w job_id
  /\ engine_state w1 job_id = Some Paused.
Proof.
  intros E S.
  destruct (find_in_jobs (scheduler w) job_id) as [job|] eqn:F.
  - destruct (pause_job_present w job_id job F) as (jobs' & Hm & E').
    destruct (modify_first_found job_id paused paused_id _ _ F) as (jobs'' & Hm' & F').
    rewrite Hm in Hm'. injection Hm' as <-.
    rewrite E' in E. injection E as _ <- _.
    unfold engine_interval, engine_state. simpl. rewrite F, F'. repeat split.
  - rewrite (pause_job_absent w job_id F) in E. injection E as <- _ _. discriminate S.
Qed.

Lemma interval_length_valid (minutes : Z) :
  valid_interval minutes -> interval_length minutes = 60 * minutes.
Proof.
  intros [Hpos _]. unfold interval_length.
  destruct (Z.eqb_spec minutes 0) as [E|_]; [lia | reflexivity].
Qed.

Lemma update_job_step (w w1 : World) (job_id : string) (minutes : Z)
    (r : Response) (tr : list Event) :
  update_job job_id minutes w = (Return r, w1, tr) ->
  success r = true ->
  store_enabled w1 job_id = store_enabled w job_id
  /\ store_interval w1 job_id = Some minutes
  /\ engine_interval w1 job_id = Some (interval_length minutes).
Proof.
  intros E S.
  destruct (find_in_jobs (scheduler w) job_id) as [job|] eqn:F.
  - destruct (first_row (db w) job_id) as [row|] eqn:R.
    + destruct (update_job_success w job_id minutes job row F R) as (w' & E' & F' & R').
      rewrite E' in E. injection E as _ <- _.
      unfold store_enabled, store_interval, engine_interval. rewrite F', R', R.
      repeat split.
    + destruct (update_job_present w job_id job F minutes) as (jobs' & _ & E').
      rewrite R in E'. rewrite E' in E. discriminate E.
  - rewrite (update_job_absent w job_id F) in E. injection E as <- _ _. discriminate S.
Qed.

Lemma call_step (w w1 : World) (job_id : string) (c : Call) (r : Response) (tr : list Event) :
  run_op (op_of_call job_id c) w = (Return r, w1, tr) ->
  success r = true ->
  store_enabled w1 job_id = store_enabled w job_id
  /\ ((forall minutes, c = CallUpdate minutes -> valid_interval minutes) ->
      intervals_agree w job_id \/ (exists minutes, c = CallUpdate minutes) ->
      intervals_agree w1 job_id)
  /\ (c = CallStart -> engine_state w1 job_id = Some Scheduled)
  /\ (c = CallPause -> engine_state w1 job_id = Some Paused).
Proof.
  intros E S. destruct c as [| |minutes]; simpl in E.
  - destruct (start_job_step _ _ _ _ _ E S) as (D & I & St).
    unfold store_enabled, intervals_agree, store_interval. rewrite D, I.
    repeat split; try discriminate; [|intros _; exact St].
    intros _ [A|(m & Hm)]; [exact A | discriminate Hm].
  - destruct (pause_job_step _ _ _ _ _ E S) as (D & I & St).
    unfold store_enabled, intervals_agree, store_interval. rewrite D, I.
    repeat split; try discriminate; [|intros _; exact St].
    intros _ [A|(m & Hm)]; [exact A | discriminate Hm].
  - destruct (update_job_step _ _ _ _ _ _ E S) as (En & SI & EI).
    repeat split; try discriminate; [exact En|].
    intros V _. exists minutes. split; [exact SI|].
    rewrite EI, (interval_length_valid minutes (V minutes eq_refl)). reflexivity.
Qed.

(** C1, as the spec states it, fails: on the bootstrap state, where
    ["scan-1"] is scheduled and its row says [enabled = True], a
    successful [pause_job] pauses the Engine job and leaves the Store's
    [enabled] at [True]. *)
Lemma pause_job_store_enabled_stale :
  outcome (pause_job "scan-1" bootstrap_world)
  = Return {| success := true; message := "Job paused successfully" |}
  /\ engine_state (world_after (pause_job "scan-1" bootstrap_world)) "scan-1" = Some Paused
  /\ store_enabled (world_after (pause_job "scan-1" bootstrap_world)) "scan-1" = Some true.
Proof. repeat split. Qed.

(** C1, amended: after any sequence of [start_job], [pause_job] and
    [update_job] calls on one job id that each answer [success = True],
    the Store's [enabled] for that id is what it was before the sequence;
    when every [update_job] of the sequence asks for a valid interval
    (positive, at most [max_interval] minutes), the Store's interval equals
    the Engine's if it did before or if the sequence holds an
    [update_job]; and the Engine state is [Scheduled] when the last call
    is [start_job], [Paused] when it is [pause_job]. *)
Theorem successful_calls_mirror (job_id : string) (calls : list Call) (w w' : World) :
  run_calls job_id calls w = Some w' ->
  store_enabled w' job_id = store_enabled w job_id
  /\ ((forall minutes, In (CallUpdate minutes) calls -> valid_interval minutes) ->
      intervals_agree w job_id \/ (exists minutes, In (CallUpdate minutes) calls) ->
      intervals_agree w' job_id)
  /\ (forall earlier, calls = earlier ++ [CallStart] ->
      engine_state w' job_id = Some Scheduled)
  /\ (forall earlier, calls = earlier ++ [CallPause] ->
      engine_state w' job_id = Some Paused).
Proof.
  revert w. induction calls as [|c rest IH]; intros w H; simpl in H.
  - injection H as <-. repeat split.
    + intros _ [A|(m & [])]. exact A.
    + intros [|? ?] E; discriminate E.
    + intros [|? ?] E; discriminate E.
  - destruct (run_op (op_of_call job_id c) w) as [[[r|e] w1] tr] eqn:E; [|discriminate H].
    destruct (success r) eqn:S; [|discriminate H].
    destruct (call_step _ _ _ _ _ _ E S) as (En1 & Ag1 & St1 & Pa1).
    destruct (IH w1 H) as (En & Ag & St & Pa).
    repeat split.
    + rewrite En. exact En1.
    + intros V Hor.
      assert (V1 : forall minutes, c = CallUpdate minutes -> valid_interval minutes).
      { intros m Hm. apply V. left. exact Hm. }
      assert (Vr : forall minutes, In (CallUpdate minutes) rest -> valid_interval minutes).
      { intros m Hm. apply V. right. exact Hm. }
      destruct Hor as [A|(m & [Hm|Hm])]; apply (Ag Vr).
      * left. apply (Ag1 V1). left. exact A.
      * left. apply (Ag1 V1). right. exists m. exact Hm.
      * right. exists m. exact Hm.
    + intros [|c0 earlier] Eq; simpl in Eq; injection Eq as Ec Er.
      * subst rest. simpl in H. injection H as <-. apply St1. exact Ec.
      * apply (St earlier). exact Er.
    + intros [|c0 earlier] Eq; simpl in Eq; injection Eq as Ec Er.
      * subst rest. simpl in H. injection H as <-. apply Pa1. exact Ec.
      * apply (Pa earlier). exact Er.
Qed.

Lemma successful_calls_mirror_witness :
  run_calls "scan-1" [CallPause; CallUpdate 30; CallStart; CallPause] bootstrap_world
  = Some paused_at_30
  /\ store_enabled paused_at_30 "scan-1" = store_enabled bootstrap_world "scan-1"
  /\ ((forall minutes,
         In (CallUpdate minutes) [CallPause; CallUpdate 30; CallStart; CallPause] ->
         valid_interval minutes) ->
      intervals_agree bootstrap_world "scan-1"
      \/ (exists minutes,
            In (CallUpdate minutes) [CallPause; CallUpdate 30; CallStart; CallPause]) ->
      intervals_agree paused_at_30 "scan-1")
  /\ (forall earlier,
        [CallPause; CallUpdate 30; CallStart; CallPause] = earlier ++ [CallStart] ->
        engine_state paused_at_30 "scan-1" = Some Scheduled)
  /\ (forall earlier,
        [CallPause; CallUpdate 30; CallStart; CallPause] = earlier ++ [CallPause] ->
        engine_state paused_at_30 "scan-1" = Some Paused).
Proof.
  assert (H : run_calls "scan-1" [CallPause; CallUpdate 30; CallStart; CallPause]
                bootstrap_world = Some paused_at_30) by reflexivity.
  split; [exact H|].
  exact (successful_calls_mirror _ _ _ _ H).
Defined.

(** * Further properties of the route module *)

(** ** More on lists of jobs and rows *)

Section OtherIds.

Variables (job_id other : string).
Hypothesis distinct : other <> job_id.

Lemma modify_first_other (f : Job.t -> Job.t) (jobs jobs' : list Job.t) :
  (forall job, Job.id (f job) = Job.id job) ->
  modify_first job_id f jobs = Some jobs' ->
  find_in_jobs jobs' other = find_in_jobs jobs other.
Proof using distinct.
  intros Hid. revert jobs'.
  induction jobs as [|j rest IH]; simpl; intros jobs'; [discriminate|].
  destruct (String.eqb_spec (Job.id j) job_id) as [E|N].
  - intros H; injection H as <-. simpl. rewrite Hid, E.
    destruct (String.eqb_spec job_id other) as [E'|_]; [congruence|reflexivity].
  - destruct (modify_first job_id f rest) as [rest'|]; simpl; [|discriminate].
    intros H; injection H as <-. simpl. rewrite (IH rest' eq_refl). reflexivity.
Qed.

Lemma remove_first_other (jobs jobs' : list Job.t) :
  remove_first job_id jobs = Some jobs' ->
  find_in_jobs jobs' other = find_in_jobs jobs other.
Proof using distinct.
  revert jobs'.
  induction jobs as [|j rest IH]; simpl; intros jobs'; [discriminate|].
  destruct (String.eqb_spec (Job.id j) job_id) as [E|N].
  - intros H; injection H as <-. rewrite E.
    destruct (String.eqb_spec job_id other) as [E'|_]; [congruence|reflexivity].
  - destruct (remove_first job_id rest) as [rest'|]; simpl; [|discriminate].
    intros H; injection H as <-. simpl. rewrite (IH rest' eq_refl). reflexivity.
Qed.

Lemma replace_first_other (row' : JobMetadata.t) (rows : list JobMetadata.t) :
  JobMetadata.job_id row' = job_id ->
  first_row (replace_first job_id row' rows) other = first_row rows other.
Proof using distinct.
  intros Hid. induction rows as [|r rest IH]; simpl; [reflexivity|].
  destruct (String.eqb_spec (JobMetadata.job_id r) job_id) as [E|N]; simpl.
  - rewrite Hid, E.
    destruct (String.eqb_spec job_id other) as [E'|_]; [congruence|reflexivity].
  - rewrite IH. reflexivity.
Qed.

Lemma delete_first_other (rows : list JobMetadata.t) :
  first_row (delete_first job_id rows) other = first_row rows other.
Proof using distinct.
  induction rows as [|r rest IH]; simpl; [reflexivity|].
  destruct (String.eqb_spec (JobMetadata.job_id r) job_id) as [E|N]; simpl.
  - rewrite E.
    destruct (String.eqb_spec job_id other) as [E'|_]; [congruence|reflexivity].
  - rewrite IH. reflexivity.
Qed.

End OtherIds.

Lemma find_in_jobs_split (jobs : list Job.t) (job_id : string) (job : Job.t) :
  find_in_jobs jobs job_id = Some job ->
  exists before after,
    jobs = before ++ job :: after /\ ~ In job_id (map Job.id before).
Proof.
  induction jobs as [|j rest IH]; simpl; [discriminate|].
  destruct (String.eqb_spec (Job.id j) job_id) as [E|N]; intros H.
  - injection H as ->. exists [], rest. split; [reflexivity|]. intros [].
  - destruct (IH H) as (before & after & -> & Hb).
    exists (j :: before), after. split; [reflexivity|].
    simpl. intros [E|Hin]; [exact (N E) | exact (Hb Hin)].
Qed.

Lemma find_in_jobs_none (jobs : list Job.t) (job_id : string) :
  find_in_jobs jobs job_id = None -> ~ In job_id (map Job.id jobs).
Proof.
  intros H Hin. destruct (find_in_jobs_registered _ _ Hin) as (job & F). congruence.
Qed.

Lemma modify_first_map {B : Type} (g : Job.t -> B) (job_id : string)
    (f : Job.t -> Job.t) (jobs jobs' : list Job.t) :
  (forall job, g (f job) = g job) ->
  modify_first job_id f jobs = Some jobs' ->
  map g jobs' = map g jobs.
Proof.
  intros Hg. revert jobs'.
  induction jobs as [|j rest IH]; simpl; intros jobs'; [discriminate|].
  destruct (String.eqb (Job.id j) job_id).
  - intros H; injection H as <-. simpl. rewrite Hg. reflexivity.
  - destruct (modify_first job_id f rest) as [rest'|]; simpl; [|discriminate].
    intros H; injection H as <-. simpl. rewrite (IH rest' eq_refl). reflexivity.
Qed.

Lemma replace_first_map {B : Type} (g : JobMetadata.t -> B) (job_id : string)
    (row row' : JobMetadata.t) (rows : list JobMetadata.t) :
  first_row rows job_id = Some row ->
  g row' = g row ->
  map g (replace_first job_id row' rows) = map g rows.
Proof.
  intros H Hg. induction rows as [|r rest IH]; simpl in *; [reflexivity|].
  destruct (String.eqb (JobMetadata.job_id r) job_id).
  - injection H as ->. simpl. rewrite Hg. reflexivity.
  - simpl. rewrite (IH H). reflexivity.
Qed.

Lemma delete_first_length (job_id : string) (row : JobMetadata.t)
    (rows : list JobMetadata.t) :
  first_row rows job_id = Some row ->
  S (length (delete_first job_id rows)) = length rows.
Proof.
  induction rows as [|r rest IH]; simpl; [discriminate|].
  destruct (String.eqb (JobMetadata.job_id r) job_id); intros H; [reflexivity|].
  simpl. rewrite (IH H). reflexivity.
Qed.

Lemma first_row_none (rows : list JobMetadata.t) (job_id : string) :
  ~ In job_id (map JobMetadata.job_id rows) -> first_row rows job_id = None.
Proof.
  induction rows as [|r rest IH]; simpl; intros H; [reflexivity|].
  destruct (String.eqb_spec (JobMetadata.job_id r) job_id) as [E|_].
  - exfalso. apply H. left. exact E.
  - apply IH. intros Hin. apply H. right. exact Hin.
Qed.

Lemma delete_first_unique (job_id : string) (rows : list JobMetadata.t) :
  NoDup (map JobMetadata.job_id rows) ->
  first_row (delete_first job_id rows) job_id = None.
Proof.
  induction rows as [|r rest IH]; simpl; intros H; [reflexivity|].
  inversion H as [|x l Hx Hl]; subst.
  destruct (String.eqb_spec (JobMetadata.job_id r) job_id) as [E|N].
  - apply first_row_none. rewrite <- E. exact Hx.
  - simpl. destruct (String.eqb_spec (JobMetadata.job_id r) job_id); [contradiction|].
    exact (IH Hl).
Qed.

Lemma remove_first_unique (job_id : string) (jobs jobs' : list Job.t) :
  NoDup (map Job.id jobs) ->
  remove_first job_id jobs = Some jobs' ->
  ~ In job_id (map Job.id jobs')
  /\ NoDup (map Job.id jobs')
  /\ S (length jobs') = length jobs
  /\ (forall job, In job jobs' -> In job jobs).
Proof.
  revert jobs'.
  induction jobs as [|j rest IH]; simpl; intros jobs' H; [discriminate|].
  inversion H as [|x l Hx Hl]; subst.
  destruct (String.eqb_spec (Job.id j) job_id) as [E|N].
  - intros R; injection R as <-. rewrite <- E.
    repeat split; try assumption. intros job Hin. right. exact Hin.
  - destruct (remove_first job_id rest) as [rest'|]; simpl; [|discriminate].
    intros R; injection R as <-.
    destruct (IH rest' Hl eq_refl) as (Hn & Hd & Hlen & Hsub).
    repeat split.
    + simpl. intros [E|Hin]; [exact (N E) | exact (Hn Hin)].
    + simpl. constructor; [|exact Hd].
      intros Hin. apply Hx. apply in_map_iff in Hin. destruct Hin as (x & Ex & Hin).
      apply in_map_iff. exists x. split; [exact Ex | exact (Hsub x Hin)].
    + simpl. rewrite Hlen. reflexivity.
    + intros job [->|Hin]; [left; reflexivity | right; exact (Hsub job Hin)].
Qed.

(** ** [find_job_by_id] *)

(** [find_job_by_id] only reads the Engine and never raises.  It returns
    [None] exactly when no live job carries the id; otherwise it returns
    the first job, in enumeration order, whose id is the one asked for. *)
Theorem find_job_by_id_first_match (w : World) (job_id : string) :
  world_after (find_job_by_id job_id w) = w
  /\ events (find_job_by_id job_id w) = [EngineRead]
  /\ match outcome (find_job_by_id job_id w) with
     | Return (Some job) =>
         Job.id job = job_id
         /\ exists before after,
              scheduler w = before ++ job :: after
              /\ ~ In job_id (map Job.id before)
     | Return None => ~ In job_id (engine_ids w)
     | Raise _ => False
     end.
Proof.
  unfold find_job_by_id, bind, get_jobs, ret, world_after, events, outcome. simpl.
  repeat split.
  destruct (find_in_jobs (scheduler w) job_id) as [job|] eqn:F.
  - split; [exact (find_in_jobs_id _ _ _ F) | exact (find_in_jobs_split _ _ _ F)].
  - exact (find_in_jobs_none _ _ F).
Qed.

(** ** [manage_job_metadata] *)

Lemma names_time_interval_dec (kwargs : list Kwarg) :
  (exists v, In (kw_time_interval v) kwargs) \/ (forall v, ~ In (kw_time_interval v) kwargs).
Proof.
  induction kwargs as [|kw rest [(v & Hv)|Hno]].
  - right. intros v [].
  - left. exists v. right. exact Hv.
  - destruct kw as [i|v|b].
    + right. intros v [E|H]; [discriminate E | exact (Hno v H)].
    + left. exists v. left. reflexivity.
    + right. intros v [E|H]; [discriminate E | exact (Hno v H)].
Qed.

Lemma names_enabled_dec (kwargs : list Kwarg) :
  (exists v, In (kw_enabled v) kwargs) \/ (forall v, ~ In (kw_enabled v) kwargs).
Proof.
  induction kwargs as [|kw rest [(v & Hv)|Hno]].
  - right. intros v [].
  - left. exists v. right. exact Hv.
  - destruct kw as [i|v|b].
    + right. intros v [E|H]; [discriminate E | exact (Hno v H)].
    + right. intros v' [E|H]; [discriminate E | exact (Hno v' H)].
    + left. exists b. left. reflexivity.
Qed.

Lemma setattrs_loaded (kwargs : list Kwarg) :
  (forall v, ~ In (kw_job_id v) kwargs) ->
  forall (row : JobMetadata.t) (w : World),
  exists row',
    setattrs (Some row) kwargs w = (Return (Some row'), w, [])
    /\ JobMetadata.job_id row' = JobMetadata.job_id row
    /\ (forall v, In (kw_time_interval v) kwargs ->
        (forall v', In (kw_time_interval v') kwargs -> v' = v) ->
        JobMetadata.time_interval row' = v)
    /\ (forall v, In (kw_enabled v) kwargs ->
        (forall v', In (kw_enabled v') kwargs -> v' = v) ->
        JobMetadata.enabled row' = v)
    /\ ((forall v, ~ In (kw_time_interval v) kwargs) ->
        JobMetadata.time_interval row' = JobMetadata.time_interval row)
    /\ ((forall v, ~ In (kw_enabled v) kwargs) ->
        JobMetadata.enabled row' = JobMetadata.enabled row).
Proof.
  induction kwargs as [|kw rest IH]; intros Hid row w.
  - exists row. repeat split; intros v [].
  - assert (Hid' : forall v, ~ In (kw_job_id v) rest)
      by (intros v H; exact (Hid v (or_intror H))).
    destruct kw as [i|v0|b0]; simpl; unfold bind, ret.
    + exfalso. apply (Hid i). left. reflexivity.
    + destruct (IH Hid' (JobMetadata.mk (JobMetadata.job_id row) v0
                           (JobMetadata.enabled row)) w)
        as (row' & -> & Hj & Hti & Hen & Hti' & Hen').
      exists row'. simpl in *. split; [reflexivity|]. split; [exact Hj|].
      split; [|split; [|split]].
      * intros v _ Hall.
        assert (E0 : v0 = v) by (apply Hall; left; reflexivity).
        destruct (names_time_interval_dec rest) as [(v1 & H1)|Hno].
        -- assert (E1 : v1 = v) by (apply Hall; right; exact H1). subst v1.
           apply Hti; [exact H1|]. intros v' Hv'. apply Hall. right. exact Hv'.
        -- rewrite (Hti' Hno). exact E0.
      * intros v [E|Hin] Hall; [discriminate E|].
        apply Hen; [exact Hin|]. intros v' Hv'. apply Hall. right. exact Hv'.
      * intros Hno. exfalso. apply (Hno v0). left. reflexivity.
      * intros Hno. apply Hen'. intros v Hv. apply (Hno v). right. exact Hv.
    + destruct (IH Hid' (JobMetadata.mk (JobMetadata.job_id row)
                           (JobMetadata.time_interval row) b0) w)
        as (row' & -> & Hj & Hti & Hen & Hti' & Hen').
      exists row'. simpl in *. split; [reflexivity|]. split; [exact Hj|].
      split; [|split; [|split]].
      * intros v [E|Hin] Hall; [discriminate E|].
        apply Hti; [exact Hin|]. intros v' Hv'. apply Hall. right. exact Hv'.
      * intros v _ Hall.
        assert (E0 : b0 = v) by (apply Hall; left; reflexivity).
        destruct (names_enabled_dec rest) as [(v1 & H1)|Hno].
        -- assert (E1 : v1 = v) by (apply Hall; right; exact H1). subst v1.
           apply Hen; [exact H1|]. intros v' Hv'. apply Hall. right. exact Hv'.
        -- rewrite (Hen' Hno). exact E0.
      * intros Hno. apply Hti'. intros v Hv. apply (Hno v). right. exact Hv.
      * intros Hno. exfalso. apply (Hno b0). left. reflexivity.
Qed.

(** An action other than "update" and "delete" is not an error:
    [manage_job_metadata] then only loads the row and returns it (or
    [None]), and nothing is written. *)
Theorem manage_job_metadata_other_action
    (w : World) (job_id action : string) (kwargs : list Kwarg) :
  action <> "update" ->
  action <> "delete" ->
  manage_job_metadata job_id action kwargs w
  = (Return (first_row (db w) job_id), w, [StoreRead]).
Proof.
  intros Hu Hd. unfold manage_job_metadata, bind, session_execute_first.
  destruct (String.eqb_spec action "update") as [E|_]; [contradiction|].
  destruct (String.eqb_spec action "delete") as [E|_]; [contradiction|].
  reflexivity.
Qed.

Lemma manage_job_metadata_other_action_witness :
  "upsert" <> "update"
  /\ "upsert" <> "delete"
  /\ manage_job_metadata "scan-1" "upsert" [kw_enabled false] bootstrap_world
     = (Return (first_row (db bootstrap_world) "scan-1"), bootstrap_world, [StoreRead]).
Proof.
  assert (Hu : "upsert" <> "update") by discriminate.
  assert (Hd : "upsert" <> "delete") by discriminate.
  split; [exact Hu|]. split; [exact Hd|].
  exact (manage_job_metadata_other_action bootstrap_world "scan-1" "upsert"
           [kw_enabled false] Hu Hd).
Defined.

(** When there is no row for the job id, [manage_job_metadata] never
    changes the table: "delete" raises [UnmappedInstanceError]; "update"
    raises [AttributeError] as soon as there is a field to set, and with no
    field to set it commits nothing and returns [None]. *)
Theorem manage_job_metadata_missing_row
    (w : World) (job_id : string) (kwargs : list Kwarg) :
  first_row (db w) job_id = None ->
  outcome (manage_job_metadata job_id "delete" kwargs w) = Raise UnmappedInstanceError
  /\ world_after (manage_job_metadata job_id "delete" kwargs w) = w
  /\ outcome (manage_job_metadata job_id "update" kwargs w)
     = match kwargs with
       | [] => Return None
       | _ :: _ => Raise AttributeError
       end
  /\ db (world_after (manage_job_metadata job_id "update" kwargs w)) = db w
  /\ scheduler (world_after (manage_job_metadata job_id "update" kwargs w)) = scheduler w.
Proof.
  intros R.
  unfold manage_job_metadata, bind, session_execute_first, outcome, world_after.
  simpl. rewrite R. simpl.
  destruct kwargs as [|kw rest]; simpl; repeat split.
Qed.

Lemma manage_job_metadata_missing_row_witness :
  first_row (db orphan_world) "orphan" = None
  /\ outcome (manage_job_metadata "orphan" "delete" [] orphan_world)
     = Raise UnmappedInstanceError
  /\ world_after (manage_job_metadata "orphan" "delete" [] orphan_world) = orphan_world
  /\ outcome (manage_job_metadata "orphan" "update" [] orphan_world)
     = match @nil Kwarg with
       | [] => Return None
       | _ :: _ => Raise AttributeError
       end
  /\ db (world_after (manage_job_metadata "orphan" "update" [] orphan_world))
     = db orphan_world
  /\ scheduler (world_after (manage_job_metadata "orphan" "update" [] orphan_world))
     = scheduler orphan_world.
Proof.
  assert (R : first_row (db orphan_world) "orphan" = None) by reflexivity.
  split; [exact R|].
  exact (manage_job_metadata_missing_row orphan_world "orphan" [] R).
Defined.

(** "update" on a job id that has a row, with keywords that leave
    [job_id] alone and whose interval fits an integer column, returns the
    updated row, and that row is what a lookup of the id finds afterwards.
    A column a keyword names holds the keyword's value, a column no
    keyword names keeps its value, and [job_id] is kept; the rows of other
    job ids, the size of the table and the Engine are untouched. *)
Theorem manage_job_metadata_update_present
    (w : World) (job_id : string) (kwargs : list Kwarg) (row : JobMetadata.t) :
  first_row (db w) job_id = Some row ->
  (forall v, ~ In (kw_job_id v) kwargs) ->
  (forall v, In (kw_time_interval v) kwargs -> storable v) ->
  exists row',
    outcome (manage_job_metadata job_id "update" kwargs w) = Return (Some row')
    /\ first_row (db (world_after (manage_job_metadata job_id "update" kwargs w))) job_id
       = Some row'
    /\ JobMetadata.job_id row' = job_id
    /\ (forall v, In (kw_time_interval v) kwargs ->
        (forall v', In (kw_time_interval v') kwargs -> v' = v) ->
        JobMetadata.time_interval row' = v)
    /\ (forall v, In (kw_enabled v) kwargs ->
        (forall v', In (kw_enabled v') kwargs -> v' = v) ->
        JobMetadata.enabled row' = v)
    /\ ((forall v, ~ In (kw_time_interval v) kwargs) ->
        JobMetadata.time_interval row' = JobMetadata.time_interval row)
    /\ ((forall v, ~ In (kw_enabled v) kwargs) ->
        JobMetadata.enabled row' = JobMetadata.enabled row)
    /\ (forall other, other <> job_id ->
        first_row (db (world_after (manage_job_metadata job_id "update" kwargs w))) other
        = first_row (db w) other)
    /\ length (db (world_after (manage_job_metadata job_id "update" kwargs w)))
       = length (db w)
    /\ scheduler (world_after (manage_job_metadata job_id "update" kwargs w))
       = scheduler w.
Proof.
  intros R Hid _.
  destruct (setattrs_loaded kwargs Hid row w) as (row' & E & Hj & Hti & Hen & Hti' & Hen').
  assert (Hid' : JobMetadata.job_id row' = job_id)
    by (rewrite Hj; exact (first_row_id _ _ _ R)).
  exists row'.
  unfold manage_job_metadata, bind, session_execute_first, outcome, world_after.
  simpl. rewrite R, E. simpl.
  repeat split; try assumption.
  - exact (first_row_replace_first job_id _ row row' R Hid').
  - intros other Ho. exact (replace_first_other job_id other Ho row' _ Hid').
  - rewrite <- (length_map (fun _ => tt)), <- (length_map (fun _ => tt) (db w)).
    f_equal. exact (replace_first_map (fun _ => tt) job_id row row' _ R eq_refl).
Qed.

Lemma manage_job_metadata_update_present_witness :
  first_row (db two_jobs_world) "orphan" = Some orphan_row
  /\ (forall v, ~ In (kw_job_id v) [kw_enabled true; kw_time_interval 15])
  /\ (forall v, In (kw_time_interval v) [kw_enabled true; kw_time_interval 15] ->
      storable v)
  /\ exists row',
       outcome (manage_job_metadata "orphan" "update"
                  [kw_enabled true; kw_time_interval 15] two_jobs_world)
       = Return (Some row')
       /\ first_row (db (world_after (manage_job_metadata "orphan" "update"
                                        [kw_enabled true; kw_time_interval 15]
                                        two_jobs_world))) "orphan"
          = Some row'
       /\ JobMetadata.job_id row' = "orphan"
       /\ JobMetadata.time_interval row' = 15
       /\ JobMetadata.enabled row' = true.
Proof.
  assert (R : first_row (db two_jobs_world) "orphan" = Some orphan_row) by reflexivity.
  assert (I : forall v, ~ In (kw_job_id v) [kw_enabled true; kw_time_interval 15]).
  { intros v [E|[E|[]]]; discriminate E. }
  assert (S : forall v, In (kw_time_interval v) [kw_enabled true; kw_time_interval 15] ->
                        storable v).
  { intros v [E|[E|[]]]; [discriminate E|]. injection E as <-. unfold storable. lia. }
  split; [exact R|]. split; [exact I|]. split; [exact S|].
  destruct (manage_job_metadata_update_present two_jobs_world "orphan"
              [kw_enabled true; kw_time_interval 15] orphan_row R I S)
    as (row' & Ho & Hf & Hj & Hti & Hen & _).
  exists row'. split; [exact Ho|]. split; [exact Hf|]. split; [exact Hj|]. split.
  - apply Hti; [right; left; reflexivity|].
    intros v' [E|[E|[]]]; [discriminate E|]. injection E as <-. reflexivity.
  - apply Hen; [left; reflexivity|].
    intros v' [E|[E|[]]]; [|discriminate E]. injection E as <-. reflexivity.
Defined.

(** "delete" on a job id that has a row returns that row and removes
    exactly one row; the rows of other job ids and the Engine are
    untouched, and when job ids are unique in the table the id has no row
    afterwards. *)
Theorem manage_job_metadata_delete_present
    (w : World) (job_id : string) (kwargs : list Kwarg) (row : JobMetadata.t) :
  first_row (db w) job_id = Some row ->
  outcome (manage_job_metadata job_id "delete" kwargs w) = Return (Some row)
  /\ S (length (db (world_after (manage_job_metadata job_id "delete" kwargs w))))
     = length (db w)
  /\ (forall other, other <> job_id ->
      first_row (db (world_after (manage_job_metadata job_id "delete" kwargs w))) other
      = first_row (db w) other)
  /\ (NoDup (map JobMetadata.job_id (db w)) ->
      first_row (db (world_after (manage_job_metadata job_id "delete" kwargs w))) job_id
      = None)
  /\ scheduler (world_after (manage_job_metadata job_id "delete" kwargs w)) = scheduler w.
Proof.
  intros R.
  unfold manage_job_metadata, bind, session_execute_first, outcome, world_after.
  simpl. rewrite R. simpl.
  repeat split.
  - exact (delete_first_length _ _ _ R).
  - intros other Ho. exact (delete_first_other job_id other Ho _).
  - intros Hd. exact (delete_first_unique job_id _ Hd).
Qed.

Lemma manage_job_metadata_delete_present_witness :
  first_row (db two_jobs_world) "orphan" = Some orphan_row
  /\ outcome (manage_job_metadata "orphan" "delete" [] two_jobs_world)
     = Return (Some orphan_row)
  /\ S (length (db (world_after (manage_job_metadata "orphan" "delete" [] two_jobs_world))))
     = length (db two_jobs_world)
  /\ (forall other, other <> "orphan" ->
      first_row (db (world_after (manage_job_metadata "orphan" "delete" []
                                    two_jobs_world))) other
      = first_row (db two_jobs_world) other)
  /\ (NoDup (map JobMetadata.job_id (db two_jobs_world)) ->
      first_row (db (world_after (manage_job_metadata "orphan" "delete" []
                                    two_jobs_world))) "orphan"
      = None)
  /\ scheduler (world_after (manage_job_metadata "orphan" "delete" [] two_jobs_world))
     = scheduler two_jobs_world.
Proof.
  assert (R : first_row (db two_jobs_world) "orphan" = Some orphan_row) by reflexivity.
  split; [exact R|].
  exact (manage_job_metadata_delete_present two_jobs_world "orphan" [] orphan_row R).
Defined.

(** ** The routes when the metadata row is missing *)

Lemma remove_first_length (job_id : string) (jobs jobs' : list Job.t) :
  remove_first job_id jobs = Some jobs' -> S (length jobs') = length jobs.
Proof.
  revert jobs'.
  induction jobs as [|j rest IH]; simpl; intros jobs'; [discriminate|].
  destruct (String.eqb (Job.id j) job_id).
  - intros H; injection H as <-. reflexivity.
  - destruct (remove_first job_id rest) as [rest'|]; simpl; [|discriminate].
    intros H; injection H as <-. simpl. rewrite (IH rest' eq_refl). reflexivity.
Qed.

(** [update_job] with a valid interval on a live job without a metadata
    row stops half-way: the Engine job already has the new interval when
    the Store access raises [AttributeError], and the table is left as it
    was. *)
Theorem update_job_missing_row (w : World) (job_id : string) (minutes : Z) :
  valid_interval minutes ->
  In job_id (engine_ids w) ->
  first_row (db w) job_id = None ->
  outcome (update_job job_id minutes w) = Raise AttributeError
  /\ engine_interval (world_after (update_job job_id minutes w)) job_id
     = Some (60 * minutes)
  /\ db (world_after (update_job job_id minutes w)) = db w.
Proof.
  intros V H R. destruct (find_in_jobs_registered _ _ H) as (job & F).
  destruct (update_job_present w job_id job F minutes) as (jobs' & Hm & E).
  destruct (modify_first_found job_id _ (rescheduled_id minutes) _ _ F)
    as (jobs'' & Hm' & F').
  rewrite Hm in Hm'. injection Hm' as <-.
  rewrite R in E. rewrite E.
  unfold outcome, world_after, engine_interval. simpl. rewrite F'. simpl.
  rewrite (interval_length_valid minutes V). repeat split.
Qed.

Lemma update_job_missing_row_witness :
  valid_interval 30
  /\ In "orphan" (engine_ids orphan_world)
  /\ first_row (db orphan_world) "orphan" = None
  /\ outcome (update_job "orphan" 30 orphan_world) = Raise AttributeError
  /\ engine_interval (world_after (update_job "orphan" 30 orphan_world)) "orphan"
     = Some (60 * 30)
  /\ db (world_after (update_job "orphan" 30 orphan_world)) = db orphan_world.
Proof.
  assert (V : valid_interval 30) by (unfold valid_interval, max_interval; lia).
  assert (H : In "orphan" (engine_ids orphan_world)) by (simpl; left; reflexivity).
  assert (R : first_row (db orphan_world) "orphan" = None) by reflexivity.
  split; [exact V|]. split; [exact H|]. split; [exact R|].
  exact (update_job_missing_row orphan_world "orphan" 30 V H R).
Defined.

(** [delete_job] on a live job without a metadata row stops half-way too:
    one job has left the Engine (with unique ids, the id is gone) when
    [session.delete(None)] raises [UnmappedInstanceError], and the table is
    left as it was. *)
Theorem delete_job_missing_row (w : World) (job_id : string) :
  In job_id (engine_ids w) ->
  first_row (db w) job_id = None ->
  outcome (delete_job job_id w) = Raise UnmappedInstanceError
  /\ S (length (scheduler (world_after (delete_job job_id w)))) = length (scheduler w)
  /\ (NoDup (engine_ids w) -> ~ In job_id (engine_ids (world_after (delete_job job_id w))))
  /\ db (world_after (delete_job job_id w)) = db w.
Proof.
  intros H R. destruct (find_in_jobs_registered _ _ H) as (job & F).
  destruct (delete_job_present w job_id job F) as (jobs' & Hm & E).
  rewrite R in E. rewrite E.
  unfold outcome, world_after, engine_ids. simpl. repeat split.
  - exact (remove_first_length _ _ _ Hm).
  - intros Hd. exact (proj1 (remove_first_unique _ _ _ Hd Hm)).
Qed.

Lemma delete_job_missing_row_witness :
  In "orphan" (engine_ids orphan_world)
  /\ first_row (db orphan_world) "orphan" = None
  /\ outcome (delete_job "orphan" orphan_world) = Raise UnmappedInstanceError
  /\ S (length (scheduler (world_after (delete_job "orphan" orphan_world))))
     = length (scheduler orphan_world)
  /\ (NoDup (engine_ids orphan_world) ->
      ~ In "orphan" (engine_ids (world_after (delete_job "orphan" orphan_world))))
  /\ db (world_after (delete_job "orphan" orphan_world)) = db orphan_world.
Proof.
  assert (H : In "orphan" (engine_ids orphan_world)) by (simpl; left; reflexivity).
  assert (R : first_row (db orphan_world) "orphan" = None) by reflexivity.
  split; [exact H|]. split; [exact R|].
  exact (delete_job_missing_row orphan_world "orphan" H R).
Defined.

(** ** Every way a mutating route can end *)

(** A mutating route called with a valid interval (for [update_job])
    either returns or raises.  When it returns, it reports success exactly
    when the job id is live, and otherwise its answer is the "Job not
    found" dictionary.  It raises only in [update_job] ([AttributeError])
    and [delete_job] ([UnmappedInstanceError]), and only for a live job
    whose metadata row is missing; [start_job] and [pause_job] never
    raise. *)
Theorem run_op_outcome_cases (op : Op) (w : World) :
  op_valid op ->
  match outcome (run_op op w) with
  | Return r =>
      (success r = true <-> In (op_job_id op) (engine_ids w))
      /\ (success r = false -> r = not_found)
  | Raise e =>
      In (op_job_id op) (engine_ids w)
      /\ first_row (db w) (op_job_id op) = None
      /\ match op with
         | UpdateInterval _ _ => e = AttributeError
         | DeleteJob _ => e = UnmappedInstanceError
         | StartJob _ | PauseJob _ => False
         end
  end.
Proof.
  intros _.
  destruct (find_in_jobs (scheduler w) (op_job_id op)) as [job|] eqn:F.
  - assert (Hin : In (op_job_id op) (engine_ids w)).
    { destruct (find_in_jobs_split _ _ _ F) as (b & a & E & _).
      unfold engine_ids. rewrite E, map_app. apply in_or_app. right. left.
      exact (find_in_jobs_id _ _ _ F). }
    destruct op; simpl in *.
    + destruct (start_job_present w _ job F) as (js & _ & ->). simpl.
      split; [tauto | discriminate].
    + destruct (pause_job_present w _ job F) as (js & _ & ->). simpl.
      split; [tauto | discriminate].
    + destruct (update_job_present w _ job F minutes) as (js & _ & ->).
      destruct (first_row (db w) job_id); simpl.
      * split; [tauto | discriminate].
      * repeat split. exact Hin.
    + destruct (delete_job_present w _ job F) as (js & _ & ->).
      destruct (first_row (db w) job_id); simpl.
      * split; [tauto | discriminate].
      * repeat split. exact Hin.
  - pose proof (find_in_jobs_none _ _ F) as Hn.
    rewrite (run_op_unknown w op Hn). simpl.
    split; [|reflexivity]. split; [discriminate | contradiction].
Qed.

Lemma run_op_outcome_cases_witness :
  op_valid (UpdateInterval "orphan" 30)
  /\ match outcome (run_op (UpdateInterval "orphan" 30) orphan_world) with
     | Return r =>
         (success r = true <-> In "orphan" (engine_ids orphan_world))
         /\ (success r = false -> r = not_found)
     | Raise e =>
         In "orphan" (engine_ids orphan_world)
         /\ first_row (db orphan_world) "orphan" = None
         /\ e = AttributeError
     end.
Proof.
  assert (V : op_valid (UpdateInterval "orphan" 30))
    by (unfold op_valid, valid_interval, max_interval; lia).
  split; [exact V|].
  exact (run_op_outcome_cases (UpdateInterval "orphan" 30) orphan_world V).
Defined.

(** ** What an operation on one job id leaves alone *)

(** Whatever the route and however it ends, an operation on one job id
    changes neither the Engine job nor the metadata row found under any
    other id. *)
Theorem run_op_other_ids_untouched (op : Op) (w : World) (other : string) :
  other <> op_job_id op ->
  find_in_jobs (scheduler (world_after (run_op op w))) other
  = find_in_jobs (scheduler w) other
  /\ first_row (db (world_after (run_op op w))) other = first_row (db w) other.
Proof.
  intros Ho.
  destruct (find_in_jobs (scheduler w) (op_job_id op)) as [job|] eqn:F.
  - destruct op; simpl in *.
    + destruct (start_job_present w _ job F) as (js & Hm & ->). simpl.
      split; [|reflexivity].
      exact (modify_first_other _ _ Ho _ _ _ resumed_id Hm).
    + destruct (pause_job_present w _ job F) as (js & Hm & ->). simpl.
      split; [|reflexivity].
      exact (modify_first_other _ _ Ho _ _ _ paused_id Hm).
    + destruct (update_job_present w _ job F minutes) as (js & Hm & ->).
      pose proof (modify_first_other _ _ Ho _ _ _ (rescheduled_id minutes) Hm) as He.
      destruct (first_row (db w) job_id) as [row|] eqn:R; simpl.
      * split; [exact He|].
        apply (replace_first_other _ _ Ho). simpl. exact (first_row_id _ _ _ R).
      * split; [exact He | reflexivity].
    + destruct (delete_job_present w _ job F) as (js & Hm & ->).
      pose proof (remove_first_other _ _ Ho _ _ Hm) as He.
      destruct (first_row (db w) job_id) as [row|] eqn:R; simpl.
      * split; [exact He|]. exact (delete_first_other _ _ Ho _).
      * split; [exact He | reflexivity].
  - rewrite (run_op_unknown w op (find_in_jobs_none _ _ F)). split; reflexivity.
Qed.

Lemma run_op_other_ids_untouched_witness :
  "scan-1" <> op_job_id (DeleteJob "orphan")
  /\ find_in_jobs (scheduler (world_after (run_op (DeleteJob "orphan") two_jobs_world)))
       "scan-1"
     = find_in_jobs (scheduler two_jobs_world) "scan-1"
  /\ first_row (db (world_after (run_op (DeleteJob "orphan") two_jobs_world))) "scan-1"
     = first_row (db two_jobs_world) "scan-1".
Proof.
  assert (H : "scan-1" <> op_job_id (DeleteJob "orphan")) by discriminate.
  split; [exact H|].
  exact (run_op_other_ids_untouched (DeleteJob "orphan") two_jobs_world "scan-1" H).
Defined.

(** However it ends, [update_job] adds or removes no job and no row, and
    renames no job and flips no [enabled] flag: up to the order of
    enumeration, the Engine has the same ids and names and the table the
    same job ids and [enabled] flags as before. *)
Theorem update_job_keeps_ids_and_flags (w : World) (job_id : string) (minutes : Z) :
  Permutation
    (map (fun job => (Job.id job, Job.name job))
         (scheduler (world_after (update_job job_id minutes w))))
    (map (fun job => (Job.id job, Job.name job)) (scheduler w))
  /\ Permutation
       (map (fun row => (JobMetadata.job_id row, JobMetadata.enabled row))
            (db (world_after (update_job job_id minutes w))))
       (map (fun row => (JobMetadata.job_id row, JobMetadata.enabled row)) (db w)).
Proof.
  destruct (find_in_jobs (scheduler w) job_id) as [job|] eqn:F.
  - destruct (update_job_present w _ job F minutes) as (js & Hm & ->).
    pose proof (modify_first_map (fun job => (Job.id job, Job.name job)) _
                  (rescheduled minutes) _ _ (fun _ => eq_refl) Hm) as He.
    destruct (first_row (db w) job_id) as [row|] eqn:R; unfold world_after; simpl.
    + rewrite He.
      rewrite (replace_first_map
                 (fun row => (JobMetadata.job_id row, JobMetadata.enabled row))
                 job_id row (with_interval minutes row) _ R eq_refl).
      split; apply Permutation_refl.
    + rewrite He. split; apply Permutation_refl.
  - rewrite (update_job_absent w job_id F). split; apply Permutation_refl.
Qed.

(** ** The listing is read-only *)

Lemma get_all_jobs_loop_reads (w : World) (jobs : list Job.t) :
  forall acc,
    world_after (get_all_jobs_loop jobs acc w) = w
    /\ exists n, (n <= length jobs)%nat
                 /\ events (get_all_jobs_loop jobs acc w) = repeat StoreRead n.
Proof.
  induction jobs as [|j rest IH]; intros acc.
  - split; [reflexivity|]. exists 0%nat. split; [apply le_n | reflexivity].
  - simpl. unfold bind, session_execute_first.
    destruct (first_row (db w) (Job.id j)) as [row|].
    + specialize (IH (acc ++ [JobEntry.mk (Job.id j) (Job.name j)
                                (JobMetadata.time_interval row)
                                (JobMetadata.enabled row)])).
      destruct (get_all_jobs_loop rest _ w) as [[r w2] t2].
      destruct IH as (Hw & n & Hn & Ht). unfold world_after, events in *. simpl in *.
      split; [exact Hw|]. exists (S n). split; [apply le_n_S; exact Hn|].
      rewrite Ht. reflexivity.
    + split; [reflexivity|]. exists 1%nat. split; [apply le_n_S, Nat.le_0_l | reflexivity].
Qed.

(** [get_all_jobs] never changes the Engine or the Store, whether it
    returns or raises: it reads the Engine once and then issues one
    metadata query per job it gets to, and nothing else. *)
Theorem get_all_jobs_read_only (w : World) :
  world_after (get_all_jobs w) = w
  /\ exists n, (n <= length (scheduler w))%nat
               /\ events (get_all_jobs w) = EngineRead :: repeat StoreRead n.
Proof.
  destruct (get_all_jobs_loop_reads w (scheduler w) []) as (Hw & n & Hn & Ht).
  unfold get_all_jobs, bind, get_jobs.
  destruct (get_all_jobs_loop (scheduler w) [] w) as [[[entries|e] w2] t2];
    unfold world_after, events in *; simpl in *;
    (split; [exact Hw|]); exists n; (split; [exact Hn|]); rewrite Ht.
  - rewrite app_nil_r. reflexivity.
  - reflexivity.
Qed.

Lemma get_all_jobs_loop_same (w1 w2 : World) (jobs1 : list Job.t) :
  db w1 = db w2 ->
  forall jobs2 acc,
    map (fun job => (Job.id job, Job.name job)) jobs1
    = map (fun job => (Job.id job, Job.name job)) jobs2 ->
    outcome (get_all_jobs_loop jobs1 acc w1) = outcome (get_all_jobs_loop jobs2 acc w2).
Proof.
  intros Hdb.
  induction jobs1 as [|j1 rest1 IH]; intros [|j2 rest2] acc Hmap; try discriminate Hmap.
  - reflexivity.
  - simpl in Hmap. injection Hmap as Hid Hname Hrest.
    simpl. unfold bind, session_execute_first. rewrite <- Hdb, <- Hid, <- Hname.
    destruct (first_row (db w1) (Job.id j1)) as [row|]; [|reflexivity].
    specialize (IH rest2 (acc ++ [JobEntry.mk (Job.id j1) (Job.name j1)
                                    (JobMetadata.time_interval row)
                                    (JobMetadata.enabled row)]) Hrest).
    destruct (get_all_jobs_loop rest1 _ w1) as [[r1 w1'] t1].
    destruct (get_all_jobs_loop rest2 _ w2) as [[r2 w2'] t2].
    exact IH.
Qed.

Lemma get_all_jobs_same (w1 w2 : World) :
  db w1 = db w2 ->
  map (fun job => (Job.id job, Job.name job)) (scheduler w1)
  = map (fun job => (Job.id job, Job.name job)) (scheduler w2) ->
  outcome (get_all_jobs w1) = outcome (get_all_jobs w2).
Proof.
  intros Hdb Hmap.
  pose proof (get_all_jobs_loop_same w1 w2 _ Hdb _ [] Hmap) as H.
  unfold get_all_jobs, bind, get_jobs.
  destruct (get_all_jobs_loop (scheduler w1) [] w1) as [[[l1|e1] w1'] t1];
    destruct (get_all_jobs_loop (scheduler w2) [] w2) as [[[l2|e2] w2'] t2];
    unfold outcome in *; simpl in *; congruence.
Qed.

Lemma same_listing_eq (a b : Outcome JobsResponse.t) : a = b -> same_listing a b.
Proof.
  intros <-. destruct a as [r|e]; simpl; [|reflexivity].
  split; [apply Permutation_refl | split; reflexivity].
Qed.

(** Starting or pausing a job does not show in the listing: after
    [start_job] or [pause_job], [get_all_jobs] gives the answer it gave
    before, [enabled] flags included, up to the order of the entries (or
    raises the exception it raised before). *)
Theorem listing_blind_to_start_and_pause (w : World) (job_id : string) :
  same_listing (outcome (get_all_jobs (world_after (start_job job_id w))))
               (outcome (get_all_jobs w))
  /\ same_listing (outcome (get_all_jobs (world_after (pause_job job_id w))))
                  (outcome (get_all_jobs w)).
Proof.
  destruct (find_in_jobs (scheduler w) job_id) as [job|] eqn:F.
  - destruct (start_job_present w job_id job F) as (js & Hs & ->).
    destruct (pause_job_present w job_id job F) as (jp & Hp & ->).
    split; apply same_listing_eq, get_all_jobs_same; try reflexivity; simpl.
    + exact (modify_first_map (fun job => (Job.id job, Job.name job)) _ resumed _ _
               (fun _ => eq_refl) Hs).
    + exact (modify_first_map (fun job => (Job.id job, Job.name job)) _ paused _ _
               (fun _ => eq_refl) Hp).
  - rewrite (start_job_absent w job_id F), (pause_job_absent w job_id F).
    split; apply same_listing_eq; reflexivity.
Qed.

(** ** Every live job keeps its row *)

Lemma all_rows_present_ids (w : World) :
  all_rows_present w <->
  (forall job_id, In job_id (engine_ids w) -> first_row (db w) job_id <> None).
Proof.
  unfold all_rows_present, engine_ids. split.
  - intros H job_id Hin. apply in_map_iff in Hin. destruct Hin as (job & <- & Hin).
    exact (H job Hin).
  - intros H job Hin. apply H. apply in_map. exact Hin.
Qed.

(** The two facts the listing relies on, a metadata row for every live job
    and no two live jobs with one id, survive every mutating route,
    however it ends. *)
Theorem live_jobs_keep_their_rows (op : Op) (w : World) :
  all_rows_present w ->
  NoDup (engine_ids w) ->
  all_rows_present (world_after (run_op op w))
  /\ NoDup (engine_ids (world_after (run_op op w))).
Proof.
  intros Hall Hnd.
  destruct (find_in_jobs (scheduler w) (op_job_id op)) as [job|] eqn:F.
  2:{ rewrite (run_op_unknown w op (find_in_jobs_none _ _ F)). split; assumption. }
  assert (Hrow : first_row (db w) (op_job_id op) <> None).
  { rewrite <- (find_in_jobs_id _ _ _ F). apply Hall.
    destruct (find_in_jobs_split _ _ _ F) as (b & a & -> & _).
    apply in_or_app. right. left. reflexivity. }
  pose proof (proj1 (all_rows_present_ids w) Hall) as Hids.
  destruct op; simpl in *.
  - destruct (start_job_present w _ job F) as (js & Hm & ->).
    pose proof (modify_first_map Job.id _ resumed _ _ (fun _ => eq_refl) Hm) as He.
    unfold world_after; simpl. split.
    + apply all_rows_present_ids. unfold engine_ids; simpl. rewrite He. exact Hids.
    + unfold engine_ids; simpl. rewrite He. exact Hnd.
  - destruct (pause_job_present w _ job F) as (js & Hm & ->).
    pose proof (modify_first_map Job.id _ paused _ _ (fun _ => eq_refl) Hm) as He.
    unfold world_after; simpl. split.
    + apply all_rows_present_ids. unfold engine_ids; simpl. rewrite He. exact Hids.
    + unfold engine_ids; simpl. rewrite He. exact Hnd.
  - destruct (update_job_present w _ job F minutes) as (js & Hm & ->).
    pose proof (modify_first_map Job.id _ (rescheduled minutes) _ _
                  (fun _ => eq_refl) Hm) as He.
    destruct (first_row (db w) job_id) as [row|] eqn:R; [|contradiction].
    unfold world_after; simpl. split.
    + apply all_rows_present_ids. unfold engine_ids; simpl. rewrite He.
      intros other Hin.
      destruct (String.eqb_spec other job_id) as [->|N].
      * rewrite (first_row_replace_first job_id _ row _ R); [discriminate|].
        simpl. exact (first_row_id _ _ _ R).
      * rewrite (replace_first_other job_id other N); [exact (Hids other Hin)|].
        simpl. exact (first_row_id _ _ _ R).
    + unfold engine_ids; simpl. rewrite He. exact Hnd.
  - destruct (delete_job_present w _ job F) as (js & Hm & ->).
    destruct (remove_first_unique _ _ _ Hnd Hm) as (Hgone & Hnd' & _ & Hsub).
    destruct (first_row (db w) job_id) as [row|] eqn:R; [|contradiction].
    unfold world_after; simpl. split; [|exact Hnd'].
    intros j Hin. simpl.
    assert (N : Job.id j <> job_id).
    { intros E. apply Hgone. rewrite <- E. apply in_map. exact Hin. }
    rewrite (delete_first_other job_id _ N). exact (Hall j (Hsub j Hin)).
Qed.

Lemma live_jobs_keep_their_rows_witness :
  all_rows_present two_jobs_world
  /\ NoDup (engine_ids two_jobs_world)
  /\ all_rows_present (world_after (run_op (DeleteJob "orphan") two_jobs_world))
  /\ NoDup (engine_ids (world_after (run_op (DeleteJob "orphan") two_jobs_world))).
Proof.
  assert (H : all_rows_present two_jobs_world).
  { intros job [<-|[<-|[]]]; simpl; discriminate. }
  assert (D : NoDup (engine_ids two_jobs_world)).
  { simpl. constructor.
    - intros [E|[]]. discriminate E.
    - constructor; [intros [] | constructor]. }
  split; [exact H|]. split; [exact D|].
  exact (live_jobs_keep_their_rows (DeleteJob "orphan") two_jobs_world H D).
Defined.

(** ** The listing after an update or a deletion *)

Lemma entry_of_listed (rows : list JobMetadata.t) (jobs : list Job.t)
    (entries : list JobEntry.t) (entry : JobEntry.t) :
  Forall2 (entry_of rows) jobs entries ->
  In entry entries ->
  exists job, In job jobs /\ entry_of rows job entry.
Proof.
  induction 1 as [|job e jobs' entries' He _ IH]; intros Hin; [contradiction|].
  destruct Hin as [<-|Hin].
  - exists job. split; [left; reflexivity | exact He].
  - destruct (IH Hin) as (job' & Hj & He'). exists job'. split; [right|]; assumption.
Qed.

Lemma get_all_jobs_returns (w : World) :
  all_rows_present w ->
  exists entries,
    outcome (get_all_jobs w)
    = Return {| JobsResponse.jobs := entries;
                JobsResponse.success := true;
                JobsResponse.message := "Jobs successfully retrieved." |}
    /\ Forall2 (entry_of (db w)) (scheduler w) entries.
Proof.
  intros Hall.
  destruct (get_all_jobs_loop_present w (scheduler w) Hall []) as (entries & tr & E & HF).
  exists entries. unfold get_all_jobs, bind, get_jobs. rewrite E.
  split; [reflexivity | exact HF].
Qed.

Lemma update_job_rows_present (w : World) (job_id : string) (minutes : Z)
    (job : Job.t) (row : JobMetadata.t) :
  all_rows_present w ->
  find_in_jobs (scheduler w) job_id = Some job ->
  first_row (db w) job_id = Some row ->
  all_rows_present (world_after (update_job job_id minutes w))
  /\ length (scheduler (world_after (update_job job_id minutes w)))
     = length (scheduler w)
  /\ first_row (db (world_after (update_job job_id minutes w))) job_id
     = Some (with_interval minutes row).
Proof.
  intros Hall F R.
  pose proof (proj1 (all_rows_present_ids w) Hall) as Hids.
  destruct (update_job_present w _ job F minutes) as (js & Hm & ->).
  pose proof (modify_first_map Job.id _ (rescheduled minutes) _ _
                (fun _ => eq_refl) Hm) as He.
  assert (Hid : JobMetadata.job_id (with_interval minutes row) = job_id)
    by exact (first_row_id _ _ _ R).
  rewrite R. unfold world_after; simpl. repeat split.
  - apply all_rows_present_ids. unfold engine_ids; simpl. rewrite He.
    intros other Hin.
    destruct (String.eqb_spec other job_id) as [->|N].
    + rewrite (first_row_replace_first job_id _ row _ R Hid). discriminate.
    + rewrite (replace_first_other job_id other N _ _ Hid). exact (Hids other Hin).
  - rewrite <- (length_map Job.id), He. apply length_map.
  - exact (first_row_replace_first job_id _ row _ R Hid).
Qed.

(** After a successful [update_job] the listing shows the new interval:
    when the interval is valid, every live job has a metadata row and the
    id is live, the update succeeds, [get_all_jobs] afterwards lists as
    many jobs as before, and every entry carrying that id has the
    requested [time_interval] and the [enabled] flag the Store held
    before. *)
Theorem listing_after_update_job (w : World) (job_id : string) (minutes : Z) :
  valid_interval minutes ->
  all_rows_present w ->
  In job_id (engine_ids w) ->
  outcome (update_job job_id minutes w)
  = Return {| success := true; message := "Job updated successfully" |}
  /\ exists entries,
       outcome (get_all_jobs (world_after (update_job job_id minutes w)))
       = Return {| JobsResponse.jobs := entries;
                   JobsResponse.success := true;
                   JobsResponse.message := "Jobs successfully retrieved." |}
       /\ length entries = length (scheduler w)
       /\ forall entry,
            In entry entries ->
            JobEntry.id entry = job_id ->
            JobEntry.time_interval entry = minutes
            /\ Some (JobEntry.enabled entry) = store_enabled w job_id.
Proof.
  intros _ Hall Hin.
  destruct (find_in_jobs_registered _ _ Hin) as (job & F).
  pose proof (proj1 (all_rows_present_ids w) Hall job_id Hin) as Hrow.
  destruct (first_row (db w) job_id) as [row|] eqn:R; [|contradiction].
  destruct (update_job_rows_present w job_id minutes job row Hall F R)
    as (Hall' & Hlen & R').
  destruct (update_job_success w job_id minutes job row F R) as (w' & E & _ & _).
  split; [rewrite E; reflexivity|].
  destruct (get_all_jobs_returns _ Hall') as (entries & Eo & HF).
  exists entries. split; [exact Eo|]. split.
  - rewrite <- Hlen. symmetry. exact (Forall2_length HF).
  - intros entry He Hid.
    destruct (entry_of_listed _ _ _ _ HF He) as (j & _ & row' & Rj & ->).
    simpl in Hid. rewrite Hid, R' in Rj. injection Rj as <-.
    unfold store_enabled. rewrite R. split; reflexivity.
Qed.

Lemma listing_after_update_job_witness :
  valid_interval 30
  /\ all_rows_present two_jobs_world
  /\ In "scan-1" (engine_ids two_jobs_world)
  /\ outcome (update_job "scan-1" 30 two_jobs_world)
     = Return {| success := true; message := "Job updated successfully" |}
  /\ exists entries,
       outcome (get_all_jobs (world_after (update_job "scan-1" 30 two_jobs_world)))
       = Return {| JobsResponse.jobs := entries;
                   JobsResponse.success := true;
                   JobsResponse.message := "Jobs successfully retrieved." |}
       /\ length entries = length (scheduler two_jobs_world)
       /\ forall entry,
            In entry entries ->
            JobEntry.id entry = "scan-1" ->
            JobEntry.time_interval entry = 30
            /\ Some (JobEntry.enabled entry) = store_enabled two_jobs_world "scan-1".
Proof.
  assert (H : all_rows_present two_jobs_world).
  { intros job [<-|[<-|[]]]; simpl; discriminate. }
  assert (I : In "scan-1" (engine_ids two_jobs_world))
    by (simpl; right; left; reflexivity).
  assert (V : valid_interval 30) by (unfold valid_interval, max_interval; lia).
  split; [exact V|]. split; [exact H|]. split; [exact I|].
  exact (listing_after_update_job two_jobs_world "scan-1" 30 V H I).
Defined.

Lemma delete_job_unique (w : World) (job_id : string) (job : Job.t) (row : JobMetadata.t) :
  NoDup (engine_ids w) ->
  find_in_jobs (scheduler w) job_id = Some job ->
  first_row (db w) job_id = Some row ->
  exists jobs',
    delete_job job_id w
    = (Return {| success := true; message := "Job deleted successfully" |},
       {| scheduler := jobs'; db := delete_first job_id (db w) |},
       [EngineRead; EngineWrite; StoreRead; StoreWrite])
    /\ ~ In job_id (map Job.id jobs')
    /\ S (length jobs') = length (scheduler w)
    /\ (forall j, In j jobs' -> In j (scheduler w)).
Proof.
  intros Hnd F R.
  destruct (delete_job_present w _ job F) as (js & Hm & E).
  destruct (remove_first_unique _ _ _ Hnd Hm) as (Hgone & _ & Hlen & Hsub).
  rewrite R in E. exists js. repeat split; assumption.
Qed.

(** After a successful [delete_job] the job is gone from the listing: when
    every live job has a metadata row and live ids are unique, deleting a
    live id succeeds, and [get_all_jobs] afterwards returns one entry
    fewer, none of them carrying that id. *)
Theorem listing_after_delete_job (w : World) (job_id : string) :
  all_rows_present w ->
  NoDup (engine_ids w) ->
  In job_id (engine_ids w) ->
  outcome (delete_job job_id w)
  = Return {| success := true; message := "Job deleted successfully" |}
  /\ exists entries,
       outcome (get_all_jobs (world_after (delete_job job_id w)))
       = Return {| JobsResponse.jobs := entries;
                   JobsResponse.success := true;
                   JobsResponse.message := "Jobs successfully retrieved." |}
       /\ S (length entries) = length (scheduler w)
       /\ forall entry, In entry entries -> JobEntry.id entry <> job_id.
Proof.
  intros Hall Hnd Hin.
  destruct (find_in_jobs_registered _ _ Hin) as (job & F).
  pose proof (proj1 (all_rows_present_ids w) Hall job_id Hin) as Hrow.
  destruct (first_row (db w) job_id) as [row|] eqn:R; [|contradiction].
  destruct (delete_job_unique w job_id job row Hnd F R)
    as (js & E & Hgone & Hlen & Hsub).
  rewrite E. split; [reflexivity|]. unfold world_after; simpl.
  assert (Hall' : all_rows_present {| scheduler := js; db := delete_first job_id (db w) |}).
  { intros j Hj. simpl.
    assert (N : Job.id j <> job_id).
    { intros Eq. apply Hgone. rewrite <- Eq. apply in_map. exact Hj. }
    rewrite (delete_first_other job_id _ N). exact (Hall j (Hsub j Hj)). }
  destruct (get_all_jobs_returns _ Hall') as (entries & Eo & HF).
  exists entries. split; [exact Eo|]. simpl in HF. split.
  - rewrite <- Hlen. f_equal. symmetry. exact (Forall2_length HF).
  - intros entry He Hid.
    destruct (entry_of_listed _ _ _ _ HF He) as (j & Hj & row' & _ & ->).
    simpl in Hid. apply Hgone. rewrite <- Hid. apply in_map. exact Hj.
Qed.

Lemma listing_after_delete_job_witness :
  all_rows_present two_jobs_world
  /\ NoDup (engine_ids two_jobs_world)
  /\ In "orphan" (engine_ids two_jobs_world)
  /\ outcome (delete_job "orphan" two_jobs_world)
     = Return {| success := true; message := "Job deleted successfully" |}
  /\ exists entries,
       outcome (get_all_jobs (world_after (delete_job "orphan" two_jobs_world)))
       = Return {| JobsResponse.jobs := entries;
                   JobsResponse.success := true;
                   JobsResponse.message := "Jobs successfully retrieved." |}
       /\ S (length entries) = length (scheduler two_jobs_world)
       /\ forall entry, In entry entries -> JobEntry.id entry <> "orphan".
Proof.
  assert (H : all_rows_present two_jobs_world).
  { intros job [<-|[<-|[]]]; simpl; discriminate. }
  assert (D : NoDup (engine_ids two_jobs_world)).
  { simpl. constructor.
    - intros [E|[]]. discriminate E.
    - constructor; [intros [] | constructor]. }
  assert (I : In "orphan" (engine_ids two_jobs_world)) by (simpl; left; reflexivity).
  split; [exact H|]. split; [exact D|]. split; [exact I|].
  exact (listing_after_delete_job two_jobs_world "orphan" H D I).
Defined.

(** [delete_job] is not repeatable: with unique live ids, once a deletion
    has succeeded a second [delete_job] on the same id reports "Job not
    found" and changes nothing more. *)
Theorem delete_job_twice (w : World) (job_id : string) :
  NoDup (engine_ids w) ->
  In job_id (engine_ids w) ->
  first_row (db w) job_id <> None ->
  outcome (delete_job job_id w)
  = Return {| success := true; message := "Job deleted successfully" |}
  /\ outcome (delete_job job_id (world_after (delete_job job_id w)))
     = Return {| success := false; message := "Job not found" |}
  /\ world_after (delete_job job_id (world_after (delete_job job_id w)))
     = world_after (delete_job job_id w).
Proof.
  intros Hnd Hin Hrow.
  destruct (find_in_jobs_registered _ _ Hin) as (job & F).
  destruct (first_row (db w) job_id) as [row|] eqn:R; [|contradiction].
  destruct (delete_job_unique w job_id job row Hnd F R) as (js & E & Hgone & _ & _).
  assert (W : world_after (delete_job job_id w)
              = {| scheduler := js; db := delete_first job_id (db w) |})
    by (rewrite E; reflexivity).
  rewrite W, E.
  rewrite (delete_job_absent {| scheduler := js; db := delete_first job_id (db w) |}
             job_id (find_in_jobs_unknown js job_id Hgone)).
  repeat split.
Qed.

Lemma delete_job_twice_witness :
  NoDup (engine_ids bootstrap_world)
  /\ In "scan-1" (engine_ids bootstrap_world)
  /\ first_row (db bootstrap_world) "scan-1" <> None
  /\ outcome (delete_job "scan-1" bootstrap_world)
     = Return {| success := true; message := "Job deleted successfully" |}
  /\ outcome (delete_job "scan-1" (world_after (delete_job "scan-1" bootstrap_world)))
     = Return {| success := false; message := "Job not found" |}
  /\ world_after (delete_job "scan-1" (world_after (delete_job "scan-1" bootstrap_world)))
     = world_after (delete_job "scan-1" bootstrap_world).
Proof.
  assert (D : NoDup (engine_ids bootstrap_world)).
  { simpl. constructor; [intros [] | constructor]. }
  assert (I : In "scan-1" (engine_ids bootstrap_world)) by (simpl; left; reflexivity).
  assert (R : first_row (db bootstrap_world) "scan-1" <> None) by (simpl; discriminate).
  split; [exact D|]. split; [exact I|]. split; [exact R|].
  exact (delete_job_twice bootstrap_world "scan-1" D I R).
Defined.

(** ** Calls in a row on one job id *)

Lemma modify_first_twice (job_id : string) (f g : Job.t -> Job.t)
    (jobs jobs1 : list Job.t) :
  (forall job, Job.id (f job) = Job.id job) ->
  modify_first job_id f jobs = Some jobs1 ->
  modify_first job_id g jobs1 = modify_first job_id (fun job => g (f job)) jobs.
Proof.
  intros Hid. revert jobs1.
  induction jobs as [|j rest IH]; simpl; intros jobs1; [discriminate|].
  destruct (String.eqb (Job.id j) job_id) eqn:E.
  - intros H; injection H as <-. simpl. rewrite Hid, E. reflexivity.
  - destruct (modify_first job_id f rest) as [rest1|]; simpl; [|discriminate].
    intros H; injection H as <-. simpl. rewrite E, (IH rest1 eq_refl). reflexivity.
Qed.

Lemma modify_first_fixed (job_id : string) (f : Job.t -> Job.t)
    (jobs : list Job.t) (job : Job.t) :
  find_in_jobs jobs job_id = Some job ->
  f job = job ->
  modify_first job_id f jobs = Some jobs.
Proof.
  intros F Hf. induction jobs as [|j rest IH]; simpl in *; [discriminate|].
  destruct (String.eqb (Job.id j) job_id).
  - injection F as ->. rewrite Hf. reflexivity.
  - rewrite (IH F). reflexivity.
Qed.

Lemma replace_first_twice (job_id : string) (row1 row2 : JobMetadata.t)
    (rows : list JobMetadata.t) :
  JobMetadata.job_id row1 = job_id ->
  replace_first job_id row2 (replace_first job_id row1 rows)
  = replace_first job_id row2 rows.
Proof.
  intros Hid. induction rows as [|r rest IH]; simpl; [reflexivity|].
  destruct (String.eqb (JobMetadata.job_id r) job_id) eqn:E; simpl.
  - rewrite Hid, String.eqb_refl. reflexivity.
  - rewrite E, IH. reflexivity.
Qed.

(** Of two [update_job] calls in a row with valid intervals on a live job
    that has a row, only the second counts: it succeeds, and the Engine
    and the Store end up exactly as if the first call had not been
    made. *)
Theorem update_job_last_interval_wins (w : World) (job_id : string) (m1 m2 : Z) :
  valid_interval m1 ->
  valid_interval m2 ->
  In job_id (engine_ids w) ->
  first_row (db w) job_id <> None ->
  outcome (update_job job_id m2 (world_after (update_job job_id m1 w)))
  = Return {| success := true; message := "Job updated successfully" |}
  /\ world_after (update_job job_id m2 (world_after (update_job job_id m1 w)))
     = world_after (update_job job_id m2 w).
Proof.
  intros _ _ Hin Hrow.
  destruct (find_in_jobs_registered _ _ Hin) as (job & F).
  destruct (first_row (db w) job_id) as [row|] eqn:R; [|contradiction].
  destruct (update_job_present w _ job F m1) as (js1 & Hm1 & E1). rewrite R in E1.
  destruct (update_job_present w _ job F m2) as (js2 & Hm2 & E2). rewrite R in E2.
  destruct (modify_first_found job_id _ (rescheduled_id m1) _ _ F) as (js1' & Hm1' & F1).
  rewrite Hm1 in Hm1'. injection Hm1' as <-.
  assert (Hid1 : JobMetadata.job_id (with_interval m1 row) = job_id)
    by exact (first_row_id _ _ _ R).
  pose proof (first_row_replace_first job_id _ row _ R Hid1) as R1.
  assert (W1 : world_after (update_job job_id m1 w)
               = {| scheduler := js1;
                    db := replace_first job_id (with_interval m1 row) (db w) |})
    by (rewrite E1; reflexivity).
  rewrite W1, E2.
  destruct (update_job_present
              {| scheduler := js1;
                 db := replace_first job_id (with_interval m1 row) (db w) |}
              job_id _ F1 m2) as (js3 & Hm3 & E3).
  simpl in Hm3, E3. rewrite R1 in E3. rewrite E3.
  rewrite (modify_first_twice job_id _ (rescheduled m2) _ _ (rescheduled_id m1) Hm1)
    in Hm3.
  change (modify_first job_id (rescheduled m2) (scheduler w) = Some js3) in Hm3.
  rewrite Hm2 in Hm3. injection Hm3 as <-.
  unfold outcome, world_after. simpl. split; [reflexivity|].
  rewrite (replace_first_twice job_id _ _ _ Hid1). reflexivity.
Qed.

Lemma update_job_last_interval_wins_witness :
  valid_interval 15
  /\ valid_interval 30
  /\ In "scan-1" (engine_ids two_jobs_world)
  /\ first_row (db two_jobs_world) "scan-1" <> None
  /\ outcome (update_job "scan-1" 30
                (world_after (update_job "scan-1" 15 two_jobs_world)))
     = Return {| success := true; message := "Job updated successfully" |}
  /\ world_after (update_job "scan-1" 30
                    (world_after (update_job "scan-1" 15 two_jobs_world)))
     = world_after (update_job "scan-1" 30 two_jobs_world).
Proof.
  assert (V1 : valid_interval 15) by (unfold valid_interval, max_interval; lia).
  assert (V2 : valid_interval 30) by (unfold valid_interval, max_interval; lia).
  assert (I : In "scan-1" (engine_ids two_jobs_world))
    by (simpl; right; left; reflexivity).
  assert (R : first_row (db two_jobs_world) "scan-1" <> None) by (simpl; discriminate).
  split; [exact V1|]. split; [exact V2|]. split; [exact I|]. split; [exact R|].
  exact (update_job_last_interval_wins two_jobs_world "scan-1" 15 30 V1 V2 I R).
Defined.

Lemma world_eta (w : World) : {| scheduler := scheduler w; db := db w |} = w.
Proof. destruct w. reflexivity. Qed.

Lemma resumed_scheduled (job : Job.t) : Job.state job = Scheduled -> resumed job = job.
Proof. destruct job as [i n t s]. simpl. intros ->. reflexivity. Qed.

Lemma paused_paused (job : Job.t) : Job.state job = Paused -> paused job = job.
Proof. destruct job as [i n t s]. simpl. intros ->. reflexivity. Qed.

(** [start_job] on a job that is already scheduled, and [pause_job] on a
    job that is already paused, report success and change nothing. *)
Theorem start_or_pause_in_that_state (w : World) (job_id : string) :
  (engine_state w job_id = Some Scheduled ->
   outcome (start_job job_id w)
   = Return {| success := true; message := "Job started successfully" |}
   /\ world_after (start_job job_id w) = w)
  /\
  (engine_state w job_id = Some Paused ->
   outcome (pause_job job_id w)
   = Return {| success := true; message := "Job paused successfully" |}
   /\ world_after (pause_job job_id w) = w).
Proof.
  unfold engine_state. split; intros H;
    destruct (find_in_jobs (scheduler w) job_id) as [job|] eqn:F;
    try discriminate H; simpl in H; injection H as St.
  - destruct (start_job_present w job_id job F) as (js & Hm & ->).
    rewrite (modify_first_fixed _ _ _ _ F (resumed_scheduled _ St)) in Hm.
    injection Hm as <-. unfold outcome, world_after. simpl.
    split; [reflexivity | apply world_eta].
  - destruct (pause_job_present w job_id job F) as (js & Hm & ->).
    rewrite (modify_first_fixed _ _ _ _ F (paused_paused _ St)) in Hm.
    injection Hm as <-. unfold outcome, world_after. simpl.
    split; [reflexivity | apply world_eta].
Qed.

Lemma start_or_pause_in_that_state_witness :
  engine_state two_jobs_world "scan-1" = Some Scheduled
  /\ outcome (start_job "scan-1" two_jobs_world)
     = Return {| success := true; message := "Job started successfully" |}
  /\ world_after (start_job "scan-1" two_jobs_world) = two_jobs_world.
Proof.
  assert (H : engine_state two_jobs_world "scan-1" = Some Scheduled) by reflexivity.
  split; [exact H|].
  exact (proj1 (start_or_pause_in_that_state two_jobs_world "scan-1") H).
Defined.

(** Pausing a scheduled job and starting it again is a round trip: both
    calls succeed and the Engine's jobs and the Store's rows are back to
    what they were. *)
Theorem pause_then_start_restores (w : World) (job_id : string) :
  engine_state w job_id = Some Scheduled ->
  outcome (pause_job job_id w)
  = Return {| success := true; message := "Job paused successfully" |}
  /\ outcome (start_job job_id (world_after (pause_job job_id w)))
     = Return {| success := true; message := "Job started successfully" |}
  /\ world_after (start_job job_id (world_after (pause_job job_id w))) = w.
Proof.
  unfold engine_state. intros H.
  destruct (find_in_jobs (scheduler w) job_id) as [job|] eqn:F; [|discriminate H].
  simpl in H. injection H as St.
  destruct (pause_job_present w job_id job F) as (jp & Hp & Ep).
  destruct (modify_first_found job_id paused paused_id _ _ F) as (jp' & Hp' & Fp).
  rewrite Hp in Hp'. injection Hp' as <-.
  assert (W1 : world_after (pause_job job_id w) = {| scheduler := jp; db := db w |})
    by (rewrite Ep; reflexivity).
  rewrite W1, Ep.
  destruct (start_job_present {| scheduler := jp; db := db w |} job_id _ Fp)
    as (js & Hs & ->).
  simpl in Hs.
  rewrite (modify_first_twice job_id _ resumed _ _ paused_id Hp) in Hs.
  change (modify_first job_id resumed (scheduler w) = Some js) in Hs.
  rewrite (modify_first_fixed _ _ _ _ F (resumed_scheduled _ St)) in Hs.
  injection Hs as <-. unfold outcome, world_after. simpl.
  repeat split. apply world_eta.
Qed.

Lemma pause_then_start_restores_witness :
  engine_state two_jobs_world "scan-1" = Some Scheduled
  /\ outcome (pause_job "scan-1" two_jobs_world)
     = Return {| success := true; message := "Job paused successfully" |}
  /\ outcome (start_job "scan-1" (world_after (pause_job "scan-1" two_jobs_world)))
     = Return {| success := true; message := "Job started successfully" |}
  /\ world_after (start_job "scan-1" (world_after (pause_job "scan-1" two_jobs_world)))
     = two_jobs_world.
Proof.
  assert (H : engine_state two_jobs_world "scan-1" = Some Scheduled) by reflexivity.
  split; [exact H|].
  exact (pause_then_start_restores two_jobs_world "scan-1" H).
Defined.
